(** * Object-wise sub-relation based process discovery

    A shallow embedding of
    [src/Object-wise-sub-relation-based-process-Discovery.py]:
    the extraction of the universal event-object relation of an
    object-centric event log (OCEL), the per-object-type sub-log, and the
    orchestrator that records one count and one model per object type.

    - Tables (pandas data frames) are lists of rows in table order; a row
      has the columns the program reads and the remaining columns as an
      opaque list.  Identifiers and object types are strings.
    - Python dictionaries keep their insertion order, which the
      comprehension over [event_to_objects.items()] and the returned
      dictionaries expose, so they are association lists with in-place
      update.
    - A Python [set] is enumerated in an order that changes from one
      interpreter process to the next; the model takes the enumeration as
      a parameter.
    - The calls into pm4py (discovery and visualisation) are parameters
      that may raise; [print] appends to a console.

    The source file closes its module docstring only with the quotes
    meant to open the docstring of [_extract_universal_relation], so as
    it stands the imports and that function's [def] line are inside a
    string.  The three functions are modelled as they are written. *)

From stdpp Require Import base list strings.

#[local] Set Warnings "-clear-no-such-hyp".

(** ** Tables of the log *)

(** A row of [ocel.events]: the ["ocel:eid"] column and the other columns,
    which the program never reads. *)
Record EventRow := mkEvent {
  ev_eid : string;
  ev_cols : list (string * string)
}.

(** A row of [ocel.objects]: ["ocel:oid"], ["ocel:type"], other columns. *)
Record ObjectRow := mkObject {
  ob_oid : string;
  ob_type : string;
  ob_cols : list (string * string)
}.

(** A row of [ocel.relations]: ["ocel:eid"], ["ocel:oid"], other columns. *)
Record RelationRow := mkRelation {
  rel_eid : string;
  rel_oid : string;
  rel_cols : list (string * string)
}.

Record OCEL := mkOCEL {
  events : list EventRow;
  objects : list ObjectRow;
  relations : list RelationRow
}.

#[global] Instance EventRow_eq_dec : EqDecision EventRow.
Proof. solve_decision. Defined.
#[global] Instance ObjectRow_eq_dec : EqDecision ObjectRow.
Proof. solve_decision. Defined.
#[global] Instance RelationRow_eq_dec : EqDecision RelationRow.
Proof. solve_decision. Defined.

(** An element of the list [universal_relation]: the dictionary with the
    keys ["event_id"], ["object_id"] and ["object_type"]; the last one is
    the result of [dict.get], hence [None] for an unknown object. *)
Record Entry := mkEntry {
  event_id : string;
  object_id : string;
  object_type : option string
}.

#[global] Instance Entry_eq_dec : EqDecision Entry.
Proof. solve_decision. Defined.

(** ** Python dictionaries with string keys *)

Definition dict (V : Type) : Type := list (string * V).

(** [d.get(k)] *)
Fixpoint dict_get {V} (k : string) (d : dict V) : option V :=
  match d with
  | [] => None
  | (k', v) :: d' => if decide (k' = k) then Some v else dict_get k d'
  end.

(** [d[k] = v]: an existing key keeps its position, a new key goes last. *)
Fixpoint dict_set {V} (k : string) (v : V) (d : dict V) : dict V :=
  match d with
  | [] => [(k, v)]
  | (k', v') :: d' =>
      if decide (k' = k) then (k', v) :: d' else (k', v') :: dict_set k v d'
  end.

(** [d.keys()] and [d.items()], in insertion order. *)
Definition dict_keys {V} (d : dict V) : list string := d.*1.
Definition dict_items {V} (d : dict V) : list (string * V) := d.

(** [dict(zip(ks, vs))], the pairs being inserted from left to right. *)
Definition dict_of_pairs {V} (kvs : list (string * V)) : dict V :=
  fold_left (λ d kv, dict_set kv.1 kv.2 d) kvs [].

(** [d[k].append(v)] on a [defaultdict(list)]: a missing key is first
    bound to the empty list (at the end), then [v] is appended. *)
Definition defaultdict_append {V} (k : string) (v : V)
    (d : dict (list V)) : dict (list V) :=
  dict_set k (default [] (dict_get k d) ++ [v]) d.

(** The dictionary binding every key of [ks], in this order, to [f k]. *)
Definition tabulate {V} (f : string → V) (ks : list string) : dict V :=
  (λ k, (k, f k)) <$> ks.

(** ** pandas and builtin helpers *)

(** [Series.unique()]: the distinct values in order of first appearance. *)
Definition unique (l : list string) : list string :=
  fold_left (λ seen x, if decide (x ∈ seen) then seen else seen ++ [x]) l [].

(** Python's [set(...)] of strings.  Its iteration order follows the
    per-process string hashing, so the model is any enumeration without
    repetition of the members. *)
Record PySet := mkPySet {
  set_of : list string → list string;
  set_of_elem : ∀ l x, x ∈ set_of l ↔ x ∈ l;
  set_of_NoDup : ∀ l, NoDup (set_of l)
}.

(** ** [_extract_universal_relation] *)

(** [object_id_to_type = dict(zip(objects_df["ocel:oid"],
                                  objects_df["ocel:type"]))] *)
Definition object_id_to_type (ocel : OCEL) : dict string :=
  dict_of_pairs (zip (ob_oid <$> objects ocel) (ob_type <$> objects ocel)).

(** The loop over [relations_df.iterrows()] filling [event_to_objects]. *)
Definition event_to_objects (ocel : OCEL) : dict (list string) :=
  fold_left (λ d row, defaultdict_append (rel_eid row) (rel_oid row) d)
            (relations ocel) [].

(** The list comprehension over [event_to_objects.items()]. *)
Definition universal_relation (ocel : OCEL) : list Entry :=
  '(eid, oids) ← dict_items (event_to_objects ocel);
  oid ← oids;
  [ {| event_id := eid; object_id := oid;
       object_type := dict_get oid (object_id_to_type ocel) |} ].

(** ** The sub-log of [_discover_sub_model_for_object_type] *)

(** [relevant_event_ids]: a list, one element per matching entry. *)
Definition relevant_event_ids (universal_relation : list Entry)
    (object_type_ : string) : list string :=
  event_id <$>
    filter (λ rel, object_type rel = Some object_type_) universal_relation.

(** [events_df[events_df["ocel:eid"].isin(relevant_event_ids)]] *)
Definition sub_events (ocel : OCEL) (relevant : list string) : list EventRow :=
  filter (λ row, ev_eid row ∈ relevant) (events ocel).

(** [relations_df[relations_df["ocel:eid"].isin(relevant_event_ids)]] *)
Definition sub_relations (ocel : OCEL) (relevant : list string)
    : list RelationRow :=
  filter (λ row, rel_eid row ∈ relevant) (relations ocel).

(** [related_object_ids = set(sub_relations["ocel:oid"])] *)
Definition related_object_ids (S : PySet) (sub_rels : list RelationRow)
    : list string :=
  set_of S (rel_oid <$> sub_rels).

(** [objects_df[objects_df["ocel:oid"].isin(related_object_ids)]] *)
Definition related_objects (ocel : OCEL) (related : list string)
    : list ObjectRow :=
  filter (λ row, ob_oid row ∈ related) (objects ocel).

(** [sub_ocel = OCEL(events=sub_events, objects=related_objects,
                     relations=sub_relations)] *)
Definition sub_ocel (S : PySet) (ocel : OCEL)
    (universal_relation : list Entry) (object_type_ : string) : OCEL :=
  let relevant := relevant_event_ids universal_relation object_type_ in
  let sub_rels := sub_relations ocel relevant in
  {| events := sub_events ocel relevant;
     objects := related_objects ocel (related_object_ids S sub_rels);
     relations := sub_rels |}.

(** ** Effects: console output and failing library calls *)

(** What the program prints or shows, in order. *)
Inductive Msg (Model : Type) : Type :=
  | PrintTotal (n : nat)
      (* "Total Event-Object universal relation count: {n}" *)
  | PrintPerspective (t : string)
      (* "=== [DISCOVERY] Object Type Perspective: {t} ===" *)
  | PrintTypeCount (t : string) (n : nat)
      (* "Total Event-Object count for object type '{t}': {n}" *)
  | ViewOcdfg (m : Model)
      (* pm4py.view_ocdfg(m) *)
  | PrintSummaryHeader
      (* "=== [SUMMARY] ===" *)
  | PrintSummaryLine (t : string) (n : nat).
      (* "Object Type '{t}': {n} Event-Object relations" *)

Arguments PrintTotal {Model} n.
Arguments PrintPerspective {Model} t.
Arguments PrintTypeCount {Model} t n.
Arguments ViewOcdfg {Model} m.
Arguments PrintSummaryHeader {Model}.
Arguments PrintSummaryLine {Model} t n.

(** A computation reads and extends the console and either returns a
    value or raises; what was printed before an exception stays. *)
Definition M (Model Err A : Type) : Type :=
  list (Msg Model) → (Err + A) * list (Msg Model).

Definition ret {Model Err A} (a : A) : M Model Err A := λ c, (inr a, c).

Definition bind {Model Err A B} (m : M Model Err A)
    (k : A → M Model Err B) : M Model Err B :=
  λ c, match m c with
       | (inl e, c') => (inl e, c')
       | (inr a, c') => k a c'
       end.

Definition emit {Model Err} (msg : Msg Model) : M Model Err unit :=
  λ c, (inr (), c ++ [msg]).

Definition call {Model Err A} (r : Err + A) : M Model Err A := λ c, (r, c).

#[global] Instance M_ret {Model Err} : MRet (M Model Err) := @ret Model Err.
#[global] Instance M_bind {Model Err} : MBind (M Model Err) :=
  λ A B k m, bind m k.

Section Discovery.
Context {Model Err : Type}.

(** [pm4py.discover_ocdfg] and [pm4py.view_ocdfg]. *)
Variable discover_ocdfg : OCEL → Err + Model.
Variable view_ocdfg : Model → Err + unit.

(** The [set] implementation of the running interpreter. *)
Variable S : PySet.

Local Abbreviation Py := (M Model Err).

Definition _extract_universal_relation (ocel : OCEL)
    : Py (list Entry * nat) :=
  let universal_relation := universal_relation ocel in
  let total_relation_count := length universal_relation in
  emit (PrintTotal total_relation_count) ;;
  ret (universal_relation, total_relation_count).

Definition _discover_sub_model_for_object_type (ocel : OCEL)
    (universal_relation : list Entry) (object_type_ : string)
    : Py (nat * Model) :=
  emit (PrintPerspective object_type_) ;;
  let relevant_event_ids :=
    relevant_event_ids universal_relation object_type_ in
  let sub_events := sub_events ocel relevant_event_ids in
  let sub_relations := sub_relations ocel relevant_event_ids in
  let related_object_ids := related_object_ids S sub_relations in
  let related_objects := related_objects ocel related_object_ids in
  let sub_ocel :=
    {| events := sub_events; objects := related_objects;
       relations := sub_relations |} in
  let sub_relation_count := length sub_relations in
  emit (PrintTypeCount object_type_ sub_relation_count) ;;
  ocdfg_model ← call (discover_ocdfg sub_ocel);
  emit (ViewOcdfg ocdfg_model) ;;
  call (view_ocdfg ocdfg_model) ;;
  ret (sub_relation_count, ocdfg_model).

(** The [for obj_type in object_types] loop; the two dictionaries are
    the loop state. *)
Fixpoint discover_loop (ocel : OCEL) (universal_relation : list Entry)
    (object_types : list string)
    (sub_relation_counts : dict nat) (discovered_models : dict Model)
    : Py (dict nat * dict Model) :=
  match object_types with
  | [] => ret (sub_relation_counts, discovered_models)
  | obj_type :: rest =>
      '(sub_count, sub_model) ←
        _discover_sub_model_for_object_type ocel universal_relation
          obj_type;
      discover_loop ocel universal_relation rest
        (dict_set obj_type sub_count sub_relation_counts)
        (dict_set obj_type sub_model discovered_models)
  end.

(** The [for obj_type, count in sub_relation_counts.items()] loop. *)
Fixpoint summary_loop (items : list (string * nat)) : Py unit :=
  match items with
  | [] => ret ()
  | (obj_type, count) :: rest =>
      emit (PrintSummaryLine obj_type count) ;; summary_loop rest
  end.

Definition discover_object_wise_sub_models_with_counts (ocel : OCEL)
    : Py (nat * dict nat * dict Model) :=
  '(universal_relation, total_universal_count) ←
    _extract_universal_relation ocel;
  let object_types := unique (ob_type <$> objects ocel) in
  '(sub_relation_counts, discovered_models) ←
    discover_loop ocel universal_relation object_types [] [];
  emit PrintSummaryHeader ;;
  summary_loop (dict_items sub_relation_counts) ;;
  ret (total_universal_count, sub_relation_counts, discovered_models).

End Discovery.

(** ** The universal relation as the specification words it *)

(** The entry that the comprehension builds from the event id and the
    object id of a relation row. *)
Definition entry_of (ocel : OCEL) (row : RelationRow) : Entry :=
  {| event_id := rel_eid row; object_id := rel_oid row;
     object_type := dict_get (rel_oid row) (object_id_to_type ocel) |}.

(** Relation rows grouped by event id: groups in first-seen order of the
    event ids, the table order kept inside each group. *)
Definition spec_grouped_relations (rows : list RelationRow)
    : list RelationRow :=
  eid ← unique (rel_eid <$> rows); filter (λ row, rel_eid row = eid) rows.

Definition spec_universal_relation (ocel : OCEL) : list Entry :=
  entry_of ocel <$> spec_grouped_relations (relations ocel).

(** ** Values of a run named for the statements below *)

(** [object_types = ocel.objects["ocel:type"].unique()] *)
Definition object_types (ocel : OCEL) : list string :=
  unique (ob_type <$> objects ocel).

(** [sub_relation_count] of the step for type [t] in a run on [ocel]. *)
Definition sub_relation_count (ocel : OCEL) (t : string) : nat :=
  length (sub_relations ocel (relevant_event_ids (universal_relation ocel) t)).

(** The item [(k, m)] of [discovered_models] is what the two pm4py calls
    gave for type [t]: [k] is [t], discovery of the sub-log of [t]
    returned [m], and showing [m] returned. *)
Definition served {Model Err : Type} (discover_ocdfg : OCEL → Err + Model)
    (view_ocdfg : Model → Err + unit) (S : PySet) (ocel : OCEL)
    (universal_relation : list Entry) (t : string) (km : string * Model)
    : Prop :=
  km.1 = t ∧
  discover_ocdfg (sub_ocel S ocel universal_relation t) = inr km.2 ∧
  view_ocdfg km.2 = inr ().

(** ** Concrete inputs *)

(** The scenario of the specification: events e1 and e2, an order o1 and
    an item o2, and the relations (e1,o1), (e1,o2), (e2,o2). *)
Definition shop_log : OCEL :=
  {| events := [mkEvent "e1" []; mkEvent "e2" []];
     objects := [mkObject "o1" "order" []; mkObject "o2" "item" []];
     relations := [mkRelation "e1" "o1" []; mkRelation "e1" "o2" [];
                   mkRelation "e2" "o2" []] |}.

(** A log whose second relation row names an object "oX" that the Object
    table does not have. *)
Definition dangling_log : OCEL :=
  {| events := [mkEvent "e1" []];
     objects := [mkObject "o1" "order" []];
     relations := [mkRelation "e1" "o1" []; mkRelation "e1" "oX" []] |}.

(** A log whose relation rows of one event are not adjacent. *)
Definition interleaved_log : OCEL :=
  {| events := [mkEvent "e1" []; mkEvent "e2" []];
     objects := [mkObject "o1" "order" []; mkObject "o2" "item" []];
     relations := [mkRelation "e1" "o1" []; mkRelation "e2" "o2" [];
                   mkRelation "e1" "o2" []] |}.

(** A log whose only event is related to two items. *)
Definition two_items_log : OCEL :=
  {| events := [mkEvent "e1" []];
     objects := [mkObject "o1" "item" []; mkObject "o2" "item" []];
     relations := [mkRelation "e1" "o1" []; mkRelation "e1" "o2" []] |}.

(** A discovery service that returns the sizes of the three tables of the
    sub-log it is given, and a viewer that returns. *)
Definition table_sizes (sub : OCEL) : string + (nat * nat * nat) :=
  inr (length (events sub), length (objects sub), length (relations sub)).

Definition silent_view (m : nat * nat * nat) : string + unit := inr ().

(** Two [set] implementations that enumerate in opposite orders. *)
Definition forward_set : PySet :=
  {| set_of := remove_dups;
     set_of_elem := elem_of_remove_dups;
     set_of_NoDup := NoDup_remove_dups |}.

Definition backward_set : PySet.
Proof.
  refine {| set_of := λ l, reverse (remove_dups l) |}.
  - intros l x. rewrite elem_of_reverse. apply elem_of_remove_dups.
  - intros l. rewrite reverse_Permutation. apply NoDup_remove_dups.
Defined.

(** ** Outcomes and output of the step for one object type *)

(** Both pm4py calls of the step for type [t] return. *)
Definition succeeds {Model Err : Type} (discover_ocdfg : OCEL → Err + Model)
    (view_ocdfg : Model → Err + unit) (S : PySet) (ocel : OCEL)
    (universal_relation : list Entry) (t : string) : Prop :=
  ∃ m, discover_ocdfg (sub_ocel S ocel universal_relation t) = inr m ∧
       view_ocdfg m = inr ().

(** One of the pm4py calls of the step for type [t] raises [e]: the
    discovery, or the viewer on the discovered model. *)
Definition fails_with {Model Err : Type} (discover_ocdfg : OCEL → Err + Model)
    (view_ocdfg : Model → Err + unit) (S : PySet) (ocel : OCEL)
    (universal_relation : list Entry) (t : string) (e : Err) : Prop :=
  discover_ocdfg (sub_ocel S ocel universal_relation t) = inl e ∨
  ∃ m, discover_ocdfg (sub_ocel S ocel universal_relation t) = inr m ∧
       view_ocdfg m = inl e.

(** What the step for type [t] puts on the console: the two lines, and
    the model once discovery has returned it. *)
Definition step_trace {Model Err : Type} (discover_ocdfg : OCEL → Err + Model)
    (S : PySet) (ocel : OCEL) (universal_relation : list Entry) (t : string)
    : list (Msg Model) :=
  [ PrintPerspective t;
    PrintTypeCount t
      (length (sub_relations ocel (relevant_event_ids universal_relation t))) ]
  ++ match discover_ocdfg (sub_ocel S ocel universal_relation t) with
     | inl _ => []
     | inr m => [ViewOcdfg m]
     end.

(** The scenario with one more object, a pallet that no event involves. *)
Definition idle_type_log : OCEL :=
  {| events := events shop_log;
     objects := objects shop_log ++ [mkObject "o3" "pallet" []];
     relations := relations shop_log |}.

(** A discovery service that raises on a sub-log without events. *)
Definition picky_sizes (sub : OCEL) : string + (nat * nat * nat) :=
  match events sub with
  | [] => inl "empty sub-log"
  | _ => table_sizes sub
  end.

(** * Properties *)

(** ** Selections of a table *)

Lemma filter_all {A} (P : A → Prop) `{!∀ x, Decision (P x)} (l : list A) :
  (∀ x, x ∈ l → P x) → filter P l = l.
Proof.
  induction l as [|x l IH]; intros Hall; [done|].
  rewrite filter_cons_True by (apply Hall; by left).
  f_equal. apply IH. intros y Hy. apply Hall. by right.
Qed.

Lemma filter_none {A} (P : A → Prop) `{!∀ x, Decision (P x)} (l : list A) :
  (∀ x, x ∈ l → ¬ P x) → filter P l = [].
Proof.
  intros Hnone. apply elem_of_nil_inv. intros x [HP Hx]%list_elem_of_filter.
  by apply (Hnone x).
Qed.

(** Two disjoint selections of a table together are the selection of
    their union, up to the order of the rows. *)
Lemma filter_disjoint_or {A} (P Q : A → Prop)
    `{!∀ x, Decision (P x), !∀ x, Decision (Q x)} (l : list A) :
  (∀ x, P x → Q x → False) →
  filter P l ++ filter Q l ≡ₚ filter (λ x, P x ∨ Q x) l.
Proof.
  intros Hdisj. induction l as [|x l IH]; [done|].
  rewrite !filter_cons.
  destruct (decide (P x)) as [HP|HP]; destruct (decide (Q x)) as [HQ|HQ].
  - destruct (Hdisj x HP HQ).
  - rewrite decide_True by auto. cbn. by rewrite IH.
  - rewrite decide_True by auto. rewrite <- Permutation_middle. by rewrite IH.
  - rewrite decide_False by tauto. done.
Qed.

Lemma filter_fmap {A B} (f : A → B) (P : B → Prop)
    `{!∀ y, Decision (P y)} (l : list A) :
  filter P (f <$> l) = f <$> filter (λ x, P (f x)) l.
Proof.
  induction l as [|x l IH]; [done|].
  rewrite fmap_cons, !filter_cons, IH. by destruct (decide (P (f x))).
Qed.

Lemma length_filter_mono {A} (P Q : A → Prop)
    `{!∀ x, Decision (P x), !∀ x, Decision (Q x)} (l : list A) :
  (∀ x, x ∈ l → P x → Q x) →
  length (filter P l) ≤ length (filter Q l).
Proof.
  induction l as [|x l IH]; intros Himp; [done|].
  assert (length (filter P l) ≤ length (filter Q l)) as Hle.
  { apply IH. intros y Hy. apply Himp. by right. }
  rewrite !filter_cons. destruct (decide (P x)) as [HP|HP].
  - rewrite decide_True by (apply Himp; [by left|done]). cbn. lia.
  - destruct (decide (Q x)); cbn; lia.
Qed.

Lemma filter_eq_filter {A} `{!EqDecision A} (P : A → Prop)
    `{!∀ x, Decision (P x)} (l : list A) (x : A) :
  filter (λ y, y = x) (filter P l) =
    if decide (P x) then filter (λ y, y = x) l else [].
Proof.
  rewrite list_filter_filter. destruct (decide (P x)) as [HP|HP].
  - apply list_filter_iff. intros y. split; [tauto|]. by intros ->.
  - apply filter_none. intros y _ [-> ?]. done.
Qed.

(** ** Dictionaries *)

Section dict_facts.
Context {V : Type}.
Implicit Types (d : dict V) (k : string) (v : V) (f g : string → V).

Lemma dict_get_set k k' v d :
  dict_get k' (dict_set k v d) =
    if decide (k = k') then Some v else dict_get k' d.
Proof.
  induction d as [|[k0 v0] d IH]; simpl.
  - by destruct (decide (k = k')).
  - destruct (decide (k0 = k)) as [->|Hne]; simpl.
    + by destruct (decide (k = k')).
    + rewrite IH. destruct (decide (k0 = k')) as [->|?]; [|done].
      by rewrite decide_False.
Qed.

Lemma dict_keys_tabulate f ks : dict_keys (tabulate f ks) = ks.
Proof.
  unfold dict_keys, tabulate. induction ks as [|k ks IH]; [done|].
  rewrite !fmap_cons. cbn [fst]. by rewrite IH.
Qed.

Lemma tabulate_ext f g ks :
  (∀ k, k ∈ ks → f k = g k) → tabulate f ks = tabulate g ks.
Proof.
  intros H. unfold tabulate. apply list_fmap_ext.
  intros i k Hk. rewrite H; [done|]. by eapply list_elem_of_lookup_2.
Qed.

Lemma dict_get_tabulate f ks k :
  dict_get k (tabulate f ks) = if decide (k ∈ ks) then Some (f k) else None.
Proof.
  induction ks as [|k' ks IH].
  - by rewrite decide_False by apply not_elem_of_nil.
  - unfold tabulate in *. rewrite fmap_cons. cbn [dict_get].
    destruct (decide (k' = k)) as [->|Hne].
    + rewrite decide_True; [done | by left].
    + rewrite IH. apply decide_ext. rewrite elem_of_cons. naive_solver.
Qed.

Lemma dict_set_tabulate_old f ks k v :
  NoDup ks → k ∈ ks →
  dict_set k v (tabulate f ks) =
    tabulate (λ k', if decide (k' = k) then v else f k') ks.
Proof.
  intros Hnd. induction Hnd as [|k' ks Hnin Hnd IH]; intros Hin.
  - by apply elem_of_nil in Hin.
  - simpl. destruct (decide (k' = k)) as [->|Hne].
    + f_equal. apply tabulate_ext. intros k' Hk'.
      rewrite decide_False; [done | by intros ->].
    + f_equal. apply IH. apply elem_of_cons in Hin. naive_solver.
Qed.

Lemma dict_set_tabulate_new f ks k v :
  k ∉ ks → dict_set k v (tabulate f ks) = tabulate f ks ++ [(k, v)].
Proof.
  induction ks as [|k' ks IH]; intros Hnin; simpl; [done|].
  apply not_elem_of_cons in Hnin as [Hne Hnin].
  rewrite decide_False by done. f_equal. by apply IH.
Qed.
End dict_facts.

Lemma dict_set_new {V} k (v : V) d :
  k ∉ dict_keys d → dict_set k v d = d ++ [(k, v)].
Proof.
  unfold dict_keys. induction d as [|[k' v'] d IH]; intros Hnin; [done|].
  rewrite fmap_cons in Hnin. apply not_elem_of_cons in Hnin as [Hne Hnin].
  cbn [dict_set app]. rewrite decide_False by done. f_equal. by apply IH.
Qed.

Lemma dict_keys_snoc {V} k (v : V) d :
  dict_keys (d ++ [(k, v)]) = dict_keys d ++ [k].
Proof. unfold dict_keys. by rewrite fmap_app. Qed.

(** ** [unique] *)

Lemma unique_snoc l x :
  unique (l ++ [x]) =
    if decide (x ∈ unique l) then unique l else unique l ++ [x].
Proof. unfold unique. by rewrite fold_left_app. Qed.

Lemma elem_of_unique l x : x ∈ unique l ↔ x ∈ l.
Proof.
  revert x. induction l as [|y l IH] using rev_ind; intros x; [done|].
  rewrite unique_snoc, elem_of_app, list_elem_of_singleton.
  destruct (decide (y ∈ unique l)) as [Hin|Hnin].
  - rewrite IH in Hin |- *. naive_solver.
  - by rewrite elem_of_app, list_elem_of_singleton, IH.
Qed.

Lemma NoDup_unique l : NoDup (unique l).
Proof.
  induction l as [|y l IH] using rev_ind; [constructor|].
  rewrite unique_snoc.
  destruct (decide (y ∈ unique l)) as [Hin|Hnin]; [done|].
  apply NoDup_app. split_and!; [done| |apply NoDup_singleton].
  intros x Hx ->%list_elem_of_singleton. done.
Qed.

(** Keys that come earlier in [unique l] are seen earlier in [l]: the
    first of two keys occurs in [l] at a place before which, and at
    which, the second does not occur. *)
Lemma unique_first_seen l i j a b :
  unique l !! i = Some a → unique l !! j = Some b → i < j →
  ∃ p, l !! p = Some a ∧ ∀ q, q ≤ p → l !! q ≠ Some b.
Proof.
  revert i j a b. induction l as [|y l IH] using rev_ind; intros i j a b.
  - done.
  - rewrite unique_snoc. destruct (decide (y ∈ unique l)) as [Hin|Hnin].
    + intros Ha Hb Hij. destruct (IH _ _ _ _ Ha Hb Hij) as (p & Hp & Hq).
      exists p. pose proof (lookup_lt_Some _ _ _ Hp) as Hlt. split.
      * by rewrite lookup_app_l.
      * intros q Hle. rewrite lookup_app_l by lia. auto.
    + intros Ha Hb Hij.
      assert (i < length (unique l)) as Hi.
      { apply lookup_lt_Some in Hb. rewrite length_app in Hb.
        simpl in Hb. lia. }
      rewrite lookup_app_l in Ha by done.
      destruct (decide (j < length (unique l))) as [Hj|Hj].
      * rewrite lookup_app_l in Hb by done.
        destruct (IH _ _ _ _ Ha Hb Hij) as (p & Hp & Hq).
        exists p. pose proof (lookup_lt_Some _ _ _ Hp) as Hlt. split.
        -- by rewrite lookup_app_l.
        -- intros q Hle. rewrite lookup_app_l by lia. auto.
      * rewrite lookup_app_r in Hb by lia.
        assert (b = y) as ->.
        { destruct (j - length (unique l)) as [|n]; simpl in Hb; [congruence|].
          by destruct n. }
        assert (a ∈ l) as [p Hp]%list_elem_of_lookup_1.
        { apply elem_of_unique. by eapply list_elem_of_lookup_2. }
        exists p. pose proof (lookup_lt_Some _ _ _ Hp) as Hlt. split.
        -- by rewrite lookup_app_l.
        -- intros q Hle. rewrite lookup_app_l by lia. intros Hq.
           apply Hnin, elem_of_unique. by eapply list_elem_of_lookup_2.
Qed.

(** ** The universal relation *)

Lemma group_fold_tabulate (rows : list RelationRow) :
  fold_left (λ d row, defaultdict_append (rel_eid row) (rel_oid row) d)
            rows [] =
    tabulate (λ eid, rel_oid <$> filter (λ row, rel_eid row = eid) rows)
             (unique (rel_eid <$> rows)).
Proof.
  induction rows as [|r rows IH] using rev_ind; [done|].
  rewrite fold_left_app. cbn [fold_left]. rewrite IH. clear IH.
  unfold defaultdict_append.
  rewrite dict_get_tabulate, fmap_app.
  change (rel_eid <$> [r]) with [rel_eid r]. rewrite unique_snoc.
  destruct (decide (rel_eid r ∈ unique (rel_eid <$> rows))) as [Hin|Hnin].
  - rewrite dict_set_tabulate_old by (apply NoDup_unique || done).
    apply tabulate_ext. intros k _. rewrite filter_app, fmap_app.
    rewrite filter_singleton by constructor.
    destruct (decide (k = rel_eid r)) as [->|Hne].
    + by rewrite decide_True.
    + rewrite decide_False by done. by rewrite app_nil_r.
  - rewrite dict_set_tabulate_new by done.
    unfold tabulate at 2. rewrite fmap_app. f_equal.
    + apply tabulate_ext. intros k Hk. rewrite filter_app, fmap_app.
      rewrite filter_singleton by constructor.
      rewrite decide_False; [by rewrite app_nil_r|].
      intros Heq. apply Hnin. by rewrite Heq.
    + cbn [fmap list_fmap]. do 2 f_equal. rewrite filter_app, fmap_app.
      rewrite filter_singleton by constructor. rewrite decide_True by done.
      f_equal. cbn [default].
      assert (filter (λ row, rel_eid row = rel_eid r) rows = []) as ->;
        [|done].
      apply elem_of_nil_inv. intros x [Hx Hxin]%list_elem_of_filter.
      apply Hnin, elem_of_unique. rewrite <- Hx. by apply list_elem_of_fmap_2.
Qed.

Lemma group_by_keys_Permutation (rows : list RelationRow) (ks : list string) :
  NoDup ks →
  ks ≫= (λ eid, filter (λ row, rel_eid row = eid) rows)
    ≡ₚ filter (λ row, rel_eid row ∈ ks) rows.
Proof.
  induction 1 as [|k ks Hnin Hnd IH].
  - cbn. symmetry. apply Permutation_nil_r, filter_none.
    intros x _. apply not_elem_of_nil.
  - rewrite bind_cons, IH.
    rewrite filter_disjoint_or by (intros x -> ?; done).
    erewrite list_filter_iff; [done|].
    intros x. cbn. rewrite elem_of_cons. done.
Qed.

Lemma spec_grouped_relations_Permutation rows :
  spec_grouped_relations rows ≡ₚ rows.
Proof.
  unfold spec_grouped_relations.
  rewrite group_by_keys_Permutation by apply NoDup_unique.
  rewrite filter_all; [done|].
  intros x Hx. apply elem_of_unique. by apply list_elem_of_fmap_2.
Qed.

Lemma event_to_objects_tabulate ocel :
  event_to_objects ocel =
    tabulate (λ eid, rel_oid <$>
                filter (λ row, rel_eid row = eid) (relations ocel))
             (unique (rel_eid <$> relations ocel)).
Proof. apply group_fold_tabulate. Qed.

Lemma universal_relation_grouped ocel :
  universal_relation ocel = spec_universal_relation ocel.
Proof.
  unfold universal_relation, spec_universal_relation, spec_grouped_relations.
  unfold dict_items. rewrite event_to_objects_tabulate.
  generalize (unique (rel_eid <$> relations ocel)) as ks.
  induction ks as [|k ks IH]; [done|].
  unfold tabulate in *. rewrite fmap_cons, !bind_cons, fmap_app, IH.
  f_equal. clear IH.
  induction (relations ocel) as [|r rows IH]; [done|].
  rewrite filter_cons. destruct (decide (rel_eid r = k)) as [<-|Hne]; [|done].
  rewrite !fmap_cons, bind_cons, IH. done.
Qed.

Lemma universal_relation_Permutation ocel :
  universal_relation ocel ≡ₚ entry_of ocel <$> relations ocel.
Proof.
  rewrite universal_relation_grouped. unfold spec_universal_relation.
  by rewrite spec_grouped_relations_Permutation.
Qed.

Lemma length_universal_relation ocel :
  length (universal_relation ocel) = length (relations ocel).
Proof. by rewrite universal_relation_Permutation, length_fmap. Qed.

Lemma elem_of_universal_relation ocel entry :
  entry ∈ universal_relation ocel ↔
  ∃ row, entry = entry_of ocel row ∧ row ∈ relations ocel.
Proof. by rewrite universal_relation_Permutation, list_elem_of_fmap. Qed.

Lemma elem_of_relevant_event_ids ocel t eid :
  eid ∈ relevant_event_ids (universal_relation ocel) t ↔
  ∃ row, row ∈ relations ocel ∧ rel_eid row = eid ∧
         dict_get (rel_oid row) (object_id_to_type ocel) = Some t.
Proof.
  unfold relevant_event_ids. rewrite list_elem_of_fmap. split.
  - intros (entry & -> & [Ht Hin]%list_elem_of_filter).
    apply elem_of_universal_relation in Hin as (row & -> & Hrow).
    by exists row.
  - intros (row & Hrow & <- & Ht). exists (entry_of ocel row).
    split; [done|]. apply list_elem_of_filter. split; [done|].
    apply elem_of_universal_relation. by exists row.
Qed.

Lemma elem_of_sub_relations ocel t row :
  row ∈ sub_relations ocel
          (relevant_event_ids (universal_relation ocel) t) ↔
  row ∈ relations ocel ∧
  ∃ row', row' ∈ relations ocel ∧ rel_eid row' = rel_eid row ∧
          dict_get (rel_oid row') (object_id_to_type ocel) = Some t.
Proof.
  unfold sub_relations.
  rewrite list_elem_of_filter, elem_of_relevant_event_ids. tauto.
Qed.

(** The mapping from object ids to types binds an id to the type of the
    last Object row that has this id. *)
Lemma object_id_to_type_last ocel oid :
  dict_get oid (object_id_to_type ocel) =
    ob_type <$> last (filter (λ ob, ob_oid ob = oid) (objects ocel)).
Proof.
  unfold object_id_to_type, dict_of_pairs.
  induction (objects ocel) as [|ob obs IH] using rev_ind; [done|].
  rewrite !fmap_app, zip_with_app by (by rewrite !length_fmap).
  rewrite fold_left_app. cbn [fmap list_fmap zip_with fold_left fst snd].
  rewrite dict_get_set, IH, filter_app, filter_singleton by constructor.
  destruct (decide (ob_oid ob = oid)) as [Heq|Hne].
  - by rewrite last_snoc.
  - by rewrite app_nil_r.
Qed.

Lemma object_id_to_type_None ocel oid :
  dict_get oid (object_id_to_type ocel) = None ↔
  oid ∉ ob_oid <$> objects ocel.
Proof.
  rewrite object_id_to_type_last, fmap_None, last_None. split.
  - intros Hnil (ob & -> & Hob)%list_elem_of_fmap.
    by eapply filter_nil_not_elem_of.
  - intros Hnin. apply filter_none. intros ob Hob <-.
    by apply Hnin, list_elem_of_fmap_2.
Qed.

(** ** Lists made of one group per key *)

Section grouped.
Context {A : Type} (key : A → string) (g : string → list A).
Hypothesis g_key : ∀ k x, x ∈ g k → key x = k.

Lemma grouped_key_elem ks i x : (ks ≫= g) !! i = Some x → key x ∈ ks.
Proof.
  intros (k & Hx & Hk)%list_elem_of_lookup_2%list_elem_of_bind.
  by rewrite (g_key k x).
Qed.

(** Elements of different groups stand in the order of their keys. *)
Lemma grouped_order ks i j x y :
  (ks ≫= g) !! i = Some x → (ks ≫= g) !! j = Some y →
  i < j → key x ≠ key y →
  ∃ a b, a < b ∧ ks !! a = Some (key x) ∧ ks !! b = Some (key y).
Proof.
  revert i j. induction ks as [|k ks IH]; intros i j Hi Hj Hlt Hne; [done|].
  rewrite bind_cons in Hi, Hj.
  destruct (decide (i < length (g k))) as [Hig|Hig].
  - rewrite lookup_app_l in Hi by done.
    assert (key x = k) as Hx by (by eapply g_key, list_elem_of_lookup_2).
    destruct (decide (j < length (g k))) as [Hjg|Hjg].
    + rewrite lookup_app_l in Hj by done.
      destruct Hne. rewrite Hx. symmetry.
      by eapply g_key, list_elem_of_lookup_2.
    + rewrite lookup_app_r in Hj by lia.
      apply grouped_key_elem, list_elem_of_lookup_1 in Hj as [b Hb].
      exists 0, (S b). rewrite Hx. split_and!; [lia|done|done].
  - rewrite lookup_app_r in Hi, Hj by lia.
    destruct (IH _ _ Hi Hj) as (a & b & Hab & Ha & Hb); [lia|done|].
    exists (S a), (S b). split_and!; [lia|done|done].
Qed.

(** The elements of one key are next to each other. *)
Lemma grouped_contiguous ks i j l x y z :
  NoDup ks →
  (ks ≫= g) !! i = Some x → (ks ≫= g) !! j = Some y →
  (ks ≫= g) !! l = Some z →
  i ≤ j → j ≤ l → key x = key z → key y = key x.
Proof.
  intros Hnd. revert i j l.
  induction Hnd as [|k ks Hnin Hnd IH]; intros i j l Hi Hj Hl Hij Hjl Hxz;
    [done|].
  rewrite bind_cons in Hi, Hj, Hl.
  destruct (decide (l < length (g k))) as [Hlg|Hlg].
  - rewrite lookup_app_l in Hi, Hj by lia.
    rewrite (g_key k x), (g_key k y); [done|by eapply list_elem_of_lookup_2..].
  - rewrite lookup_app_r in Hl by lia.
    destruct (decide (i < length (g k))) as [Hig|Hig].
    + rewrite lookup_app_l in Hi by done. destruct Hnin.
      rewrite <- (g_key k x), Hxz by (by eapply list_elem_of_lookup_2).
      by eapply grouped_key_elem.
    + rewrite lookup_app_r in Hi, Hj by lia.
      apply (IH _ _ _ Hi Hj Hl); [lia|lia|done].
Qed.

(** Selecting the elements of one key gives back its group. *)
Lemma grouped_filter ks k :
  NoDup ks → k ∈ ks → filter (λ x, key x = k) (ks ≫= g) = g k.
Proof.
  intros Hnd. induction Hnd as [|k' ks Hnin Hnd IH]; intros Hin.
  - by apply elem_of_nil in Hin.
  - rewrite bind_cons, filter_app. destruct (decide (k' = k)) as [->|Hne].
    + rewrite filter_all by apply g_key.
      rewrite filter_none; [by rewrite app_nil_r|].
      intros x (k' & Hx & Hk')%list_elem_of_bind Hkey.
      apply Hnin. by rewrite <- Hkey, (g_key k' x).
    + rewrite filter_none, IH; [done| |].
      * apply elem_of_cons in Hin. naive_solver.
      * intros x Hx Hkey. apply Hne. by rewrite <- Hkey, (g_key k' x).
Qed.

End grouped.

Lemma fmap_bind_list {A B C} (f : B → C) (g : A → list B) (l : list A) :
  f <$> (l ≫= g) = l ≫= (λ x, f <$> g x).
Proof.
  induction l as [|x l IH]; [done|]. by rewrite !bind_cons, fmap_app, IH.
Qed.

(** The universal relation is made of one group of entries per event id. *)
Lemma universal_relation_groups ocel :
  universal_relation ocel =
    unique (rel_eid <$> relations ocel) ≫=
      (λ eid, entry_of ocel <$>
                filter (λ row, rel_eid row = eid) (relations ocel)).
Proof.
  rewrite universal_relation_grouped. apply fmap_bind_list.
Qed.

Lemma universal_relation_group_key ocel eid entry :
  entry ∈ entry_of ocel <$>
            filter (λ row, rel_eid row = eid) (relations ocel) →
  event_id entry = eid.
Proof.
  by intros (row & -> & [Heid _]%list_elem_of_filter)%list_elem_of_fmap.
Qed.

(** ** Running the three functions *)

Section run_facts.
Context {Model Err : Type}.
Variable discover_ocdfg : OCEL → Err + Model.
Variable view_ocdfg : Model → Err + unit.

Lemma bind_run {A B} (m : M Model Err A) (k : A → M Model Err B) c :
  (m ≫= k) c =
    match m c with (inl e, c') => (inl e, c') | (inr a, c') => k a c' end.
Proof. done. Qed.

Lemma extract_run ocel (c : list (Msg Model)) :
  _extract_universal_relation (Err := Err) ocel c =
    (inr (universal_relation ocel, length (relations ocel)),
     c ++ [PrintTotal (length (relations ocel))]).
Proof.
  unfold _extract_universal_relation. rewrite bind_run. cbn.
  by rewrite length_universal_relation.
Qed.

Lemma sub_model_run S ocel ur t c :
  _discover_sub_model_for_object_type discover_ocdfg view_ocdfg S ocel ur t c =
    let n := length (sub_relations ocel (relevant_event_ids ur t)) in
    let shown := c ++ [PrintPerspective t; PrintTypeCount t n] in
    match discover_ocdfg (sub_ocel S ocel ur t) with
    | inl e => (inl e, shown)
    | inr m =>
        match view_ocdfg m with
        | inl e => (inl e, shown ++ [ViewOcdfg m])
        | inr _ => (inr (n, m), shown ++ [ViewOcdfg m])
        end
    end.
Proof.
  unfold _discover_sub_model_for_object_type, sub_ocel.
  unfold mbind, M_bind, bind, emit, call, ret. cbn.
  destruct (discover_ocdfg _) as [e|m]; rewrite <- ?(assoc_L (++)); [done|].
  by destruct (view_ocdfg m) as [e|[]].
Qed.

Lemma summary_run (items : list (string * nat)) (c : list (Msg Model)) :
  summary_loop (Err := Err) items c =
    (inr (), c ++ ((λ kv, PrintSummaryLine kv.1 kv.2) <$> items)).
Proof.
  revert c. induction items as [|[t n] items IH]; intros c.
  - cbn. by rewrite app_nil_r.
  - cbn [summary_loop]. rewrite bind_run. cbn. rewrite IH.
    by rewrite <- (assoc_L (++)).
Qed.

End run_facts.

Section loop_facts.
Context {Model Err : Type}.
Variable discover_ocdfg : OCEL → Err + Model.
Variable view_ocdfg : Model → Err + unit.
Variable S : PySet.
Variable ocel : OCEL.
Variable ur : list Entry.

Local Abbreviation count_of :=
  (λ t, length (sub_relations ocel (relevant_event_ids ur t))).
Local Abbreviation loop :=
  (discover_loop discover_ocdfg view_ocdfg S ocel ur).
Local Abbreviation served_by :=
  (served discover_ocdfg view_ocdfg S ocel ur).

Lemma discover_loop_returns ts : ∀ cs ms c cs' ms',
  NoDup ts →
  (∀ t, t ∈ ts → t ∉ dict_keys cs) →
  (∀ t, t ∈ ts → t ∉ dict_keys ms) →
  (loop ts cs ms c).1 = inr (cs', ms') ↔
  cs' = cs ++ tabulate count_of ts ∧
  ∃ new, ms' = ms ++ new ∧ Forall2 served_by ts new.
Proof.
  induction ts as [|t ts IH]; intros cs ms c cs' ms' Hnd Hcs Hms.
  - cbn. rewrite app_nil_r. split.
    + intros [= <- <-]. split; [done|]. exists []. by rewrite app_nil_r.
    + intros (-> & new & -> & ->%Forall2_nil_inv_l). by rewrite app_nil_r.
  - apply NoDup_cons in Hnd as [Hnin Hnd].
    cbn [discover_loop]. rewrite bind_run, sub_model_run. cbn zeta.
    destruct (discover_ocdfg _) as [e|m] eqn:Hd.
    { split; [done|]. intros (_ & new & _ & HF).
      apply Forall2_cons_inv_l in HF as (km & ? & (_ & Hd' & _) & _).
      congruence. }
    destruct (view_ocdfg m) as [e|[]] eqn:Hv.
    { split; [done|]. intros (_ & new & _ & HF).
      apply Forall2_cons_inv_l in HF as (km & ? & (_ & Hd' & Hv') & _).
      congruence. }
    rewrite !dict_set_new by (apply Hcs || apply Hms; by left).
    rewrite IH; [|done|..].
    + rewrite <- (assoc_L (++)). cbn. split.
      * intros (-> & new & -> & HF). split; [done|].
        exists ((t, m) :: new). rewrite <- (assoc_L (++)). split; [done|].
        by constructor.
      * intros (-> & new & -> & HF). split; [done|].
        apply Forall2_cons_inv_l in HF
          as ([k m'] & new' & (Hk & Hd' & _) & HF & ->).
        cbn in Hk, Hd'. subst k. assert (m' = m) as -> by congruence.
        exists new'. by rewrite <- (assoc_L (++)).
    + intros t' Ht'.
      rewrite dict_keys_snoc, not_elem_of_app, list_elem_of_singleton.
      split; [apply Hcs; by right | by intros ->].
    + intros t' Ht'.
      rewrite dict_keys_snoc, not_elem_of_app, list_elem_of_singleton.
      split; [apply Hms; by right | by intros ->].
Qed.

End loop_facts.

Section orchestrator_facts.
Context {Model Err : Type}.
Variable discover_ocdfg : OCEL → Err + Model.
Variable view_ocdfg : Model → Err + unit.

Local Abbreviation run :=
  (discover_object_wise_sub_models_with_counts discover_ocdfg view_ocdfg).

(** The orchestrator returns exactly when every pm4py call of the run
    returns, and then with the number of relation rows, the counts of the
    object types in their order, and the served models. *)
Lemma orchestrator_returns S ocel c total counts models :
  (run S ocel c).1 = inr (total, counts, models) ↔
  total = length (relations ocel) ∧
  counts = tabulate (sub_relation_count ocel) (object_types ocel) ∧
  Forall2 (served discover_ocdfg view_ocdfg S ocel (universal_relation ocel))
          (object_types ocel) models.
Proof.
  unfold discover_object_wise_sub_models_with_counts.
  rewrite bind_run, extract_run, bind_run.
  pose proof (discover_loop_returns discover_ocdfg view_ocdfg S ocel
    (universal_relation ocel) (object_types ocel) [] []
    (c ++ [PrintTotal (length (relations ocel))])) as Hloop.
  fold (object_types ocel).
  destruct (discover_loop _ _ _ _ _ _ _ _ _) as [[e|[cs ms]] c1].
  - split; [done|]. intros (-> & -> & HF).
    specialize (Hloop (tabulate (sub_relation_count ocel) (object_types ocel))
      models (NoDup_unique _)).
    cbn in Hloop. destruct Hloop as [_ Hloop]; [intros; apply not_elem_of_nil..|].
    exfalso. enough (inl e = inr (A := Err)
      (tabulate (sub_relation_count ocel) (object_types ocel), models))
      by done.
    apply Hloop. split; [done|]. by exists models.
  - rewrite bind_run. cbn. rewrite bind_run, summary_run. cbn.
    split.
    + intros [= <- <- <-].
      destruct (Hloop cs ms (NoDup_unique _)) as [Hret _];
        [intros; apply not_elem_of_nil..|].
      destruct (Hret eq_refl) as (-> & new & -> & HF). done.
    + intros (-> & -> & HF).
      destruct (Hloop (tabulate (sub_relation_count ocel) (object_types ocel))
                  models (NoDup_unique _)) as [_ Hret];
        [intros; apply not_elem_of_nil..|].
      cbn in Hret.
      assert (inr (A := Err) (cs, ms) =
        inr (tabulate (sub_relation_count ocel) (object_types ocel), models))
        as [= -> ->]; [|done].
      apply Hret. split; [done|]. by exists models.
Qed.

(** The objects of a sub-log do not depend on the enumeration order of
    the [set] of related object ids. *)
Lemma sub_ocel_set_irrelevant S1 S2 ocel ur t :
  sub_ocel S1 ocel ur t = sub_ocel S2 ocel ur t.
Proof.
  unfold sub_ocel, related_objects, related_object_ids. f_equal.
  apply list_filter_iff. intros row. by rewrite !set_of_elem.
Qed.

Lemma discover_loop_stable S1 S2 ocel ur ts : ∀ cs ms c1 c2,
  (discover_loop discover_ocdfg view_ocdfg S1 ocel ur ts cs ms c1).1 =
  (discover_loop discover_ocdfg view_ocdfg S2 ocel ur ts cs ms c2).1 ∧
  ∃ out,
    (discover_loop discover_ocdfg view_ocdfg S1 ocel ur ts cs ms c1).2
      = c1 ++ out ∧
    (discover_loop discover_ocdfg view_ocdfg S2 ocel ur ts cs ms c2).2
      = c2 ++ out.
Proof.
  induction ts as [|t ts IH]; intros cs ms c1 c2.
  - cbn. split; [done|]. exists []. by rewrite !app_nil_r.
  - cbn [discover_loop]. rewrite !bind_run, !sub_model_run. cbn zeta.
    rewrite (sub_ocel_set_irrelevant S1 S2).
    destruct (discover_ocdfg _) as [e|m]; [cbn; eauto|].
    destruct (view_ocdfg m) as [e|[]].
    { cbn. split; [done|]. rewrite <- !(assoc_L (++)). eauto. }
    rewrite <- !(assoc_L (++)).
    edestruct IH as (Hres & out & Hout1 & Hout2).
    rewrite Hres, Hout1, Hout2. split; [done|].
    rewrite <- !(assoc_L (++)). eauto.
Qed.

Lemma orchestrator_stable S1 S2 ocel c1 c2 :
  (run S1 ocel c1).1 = (run S2 ocel c2).1 ∧
  ∃ out, (run S1 ocel c1).2 = c1 ++ out ∧ (run S2 ocel c2).2 = c2 ++ out.
Proof.
  unfold discover_object_wise_sub_models_with_counts.
  rewrite !bind_run, !extract_run, !bind_run.
  destruct (discover_loop_stable S1 S2 ocel (universal_relation ocel)
    (unique (ob_type <$> objects ocel)) [] []
    (c1 ++ [PrintTotal (length (relations ocel))])
    (c2 ++ [PrintTotal (length (relations ocel))]))
    as (Hres & out & Hout1 & Hout2).
  destruct (discover_loop _ _ S1 _ _ _ _ _ _) as [r1 c1'].
  destruct (discover_loop _ _ S2 _ _ _ _ _ _) as [r2 c2'].
  cbn in Hres, Hout1, Hout2. subst r2 c1' c2'.
  destruct r1 as [e|[cs ms]].
  - cbn. split; [done|]. rewrite <- !(assoc_L (++)). eauto.
  - rewrite !bind_run. cbn. rewrite !bind_run, !summary_run. cbn.
    split; [done|]. rewrite <- !(assoc_L (++)). eauto.
Qed.

End orchestrator_facts.

Lemma run_returns {Model Err : Type}
    (discover_ocdfg : OCEL → Err + Model) (view_ocdfg : Model → Err + unit)
    S ocel c c' total counts models :
  discover_object_wise_sub_models_with_counts discover_ocdfg view_ocdfg
    S ocel c = (inr (total, counts, models), c') →
  total = length (relations ocel) ∧
  counts = tabulate (sub_relation_count ocel) (object_types ocel) ∧
  Forall2 (served discover_ocdfg view_ocdfg S ocel (universal_relation ocel))
          (object_types ocel) models.
Proof.
  intros Hrun.
  apply (proj1 (orchestrator_returns discover_ocdfg view_ocdfg S ocel c
                  total counts models)).
  by rewrite Hrun.
Qed.

Lemma served_keys {Model Err : Type}
    (discover_ocdfg : OCEL → Err + Model) (view_ocdfg : Model → Err + unit)
    S ocel ur ts (models : dict Model) :
  Forall2 (served discover_ocdfg view_ocdfg S ocel ur) ts models →
  dict_keys models = ts.
Proof.
  unfold dict_keys. induction 1 as [|t km ts models (Hk & _) _ IH]; [done|].
  rewrite fmap_cons. by rewrite Hk, IH.
Qed.

(** Every step of the run returns when the pm4py calls return. *)
Lemma served_all {Model Err : Type}
    (discover_ocdfg : OCEL → Err + Model) (view_ocdfg : Model → Err + unit)
    S ocel ur ts :
  (∀ t, t ∈ ts → ∃ m, discover_ocdfg (sub_ocel S ocel ur t) = inr m ∧
                       view_ocdfg m = inr ()) →
  ∃ models, Forall2 (served discover_ocdfg view_ocdfg S ocel ur) ts models.
Proof.
  induction ts as [|t ts IH]; intros Hall.
  - exists []. constructor.
  - destruct (Hall t) as (m & Hd & Hv); [by left|].
    destruct IH as (models & HF); [intros; apply Hall; by right|].
    exists ((t, m) :: models). by constructor.
Qed.

(** * The claims *)

(** C1. The orchestrator's total count is the number of rows of the
    Relation table and the length of the universal relation, which has
    one entry per relation row (it is the rows' entries up to order),
    whether or not every object id is in the Object table; and the
    extraction returns it for every log. *)
Theorem count_conservation {Model Err : Type}
    (discover_ocdfg : OCEL → Err + Model) (view_ocdfg : Model → Err + unit)
    (S : PySet) (ocel : OCEL) (c c' : list (Msg Model))
    (total : nat) (counts : dict nat) (models : dict Model) :
  discover_object_wise_sub_models_with_counts discover_ocdfg view_ocdfg
    S ocel c = (inr (total, counts, models), c') →
  total = length (relations ocel) ∧
  total = length (universal_relation ocel) ∧
  universal_relation ocel ≡ₚ entry_of ocel <$> relations ocel ∧
  (_extract_universal_relation (Err := Err) ocel c).1 =
    inr (universal_relation ocel, length (relations ocel)).
Proof.
  intros Hrun.
  assert ((discover_object_wise_sub_models_with_counts discover_ocdfg
             view_ocdfg S ocel c).1 = inr (total, counts, models)) as Hret
    by (by rewrite Hrun).
  apply orchestrator_returns in Hret as (-> & _ & _).
  split_and!.
  - done.
  - by rewrite length_universal_relation.
  - apply universal_relation_Permutation.
  - by rewrite extract_run.
Qed.

Lemma count_conservation_witness :
  2 = length (relations dangling_log) ∧
  2 = length (universal_relation dangling_log) ∧
  universal_relation dangling_log ≡ₚ
    entry_of dangling_log <$> relations dangling_log ∧
  (_extract_universal_relation (Model := nat * nat * nat) (Err := string)
     dangling_log []).1 =
    inr (universal_relation dangling_log, length (relations dangling_log)).
Proof.
  eapply (count_conservation table_sizes silent_view forward_set
            dangling_log []).
  vm_compute. reflexivity.
Defined.

(** C2. A relation row whose object id resolves to an object type of the
    Object table puts its event id into the relevant events of this type,
    and the row is in the relations of the type's sub-log. *)
Theorem partition_completeness (S : PySet) (ocel : OCEL) (t : string)
    (row : RelationRow) :
  t ∈ object_types ocel →
  row ∈ relations ocel →
  object_type (entry_of ocel row) = Some t →
  rel_eid row ∈ relevant_event_ids (universal_relation ocel) t ∧
  row ∈ sub_relations ocel (relevant_event_ids (universal_relation ocel) t) ∧
  row ∈ relations (sub_ocel S ocel (universal_relation ocel) t).
Proof.
  intros _ Hrow Ht. cbn in Ht.
  assert (rel_eid row ∈ relevant_event_ids (universal_relation ocel) t) as Hrel.
  { apply elem_of_relevant_event_ids. by exists row. }
  assert (row ∈ sub_relations ocel
            (relevant_event_ids (universal_relation ocel) t)) as Hsub.
  { apply list_elem_of_filter. by split. }
  done.
Qed.

Lemma partition_completeness_witness :
  "e1" ∈ relevant_event_ids (universal_relation shop_log) "item" ∧
  mkRelation "e1" "o2" [] ∈
    sub_relations shop_log
      (relevant_event_ids (universal_relation shop_log) "item") ∧
  mkRelation "e1" "o2" [] ∈
    relations (sub_ocel forward_set shop_log (universal_relation shop_log)
                 "item").
Proof.
  apply (partition_completeness forward_set shop_log "item"
           (mkRelation "e1" "o2" [])); compute_done.
Defined.

(** C3. The count recorded for an object type is the number of rows of
    the type's sub_relations, that is of all relation rows whose event is
    relevant to the type, whatever the type of the row's own object.  On
    the specification's scenario the total is 3, the count of "order" is
    2 although a single row links to an order, and the count of "item"
    is 3. *)
Theorem sub_count_counts_rows_of_relevant_events {Model Err : Type}
    (discover_ocdfg : OCEL → Err + Model) (view_ocdfg : Model → Err + unit)
    (S : PySet) (ocel : OCEL) (c c' : list (Msg Model))
    (total : nat) (counts : dict nat) (models : dict Model) :
  discover_object_wise_sub_models_with_counts discover_ocdfg view_ocdfg
    S ocel c = (inr (total, counts, models), c') →
  (∀ t, t ∈ object_types ocel →
     dict_get t counts =
       Some (length (sub_relations ocel
               (relevant_event_ids (universal_relation ocel) t))) ∧
     sub_relations ocel (relevant_event_ids (universal_relation ocel) t) =
       filter (λ row, Exists (λ row', rel_eid row' = rel_eid row ∧
                                object_type (entry_of ocel row') = Some t)
                             (relations ocel))
              (relations ocel)) ∧
  (ocel = shop_log →
     total = 3 ∧ dict_get "order" counts = Some 2 ∧
     dict_get "item" counts = Some 3 ∧
     length (filter (λ rel, object_type rel = Some "order")
               (universal_relation shop_log)) = 1).
Proof.
  intros (-> & -> & _)%run_returns. split.
  - intros t Ht. split.
    + rewrite dict_get_tabulate. by rewrite decide_True.
    + unfold sub_relations. apply list_filter_iff. intros row.
      by rewrite elem_of_relevant_event_ids, Exists_exists.
  - intros ->. rewrite !dict_get_tabulate. compute_done.
Qed.

Lemma sub_count_counts_rows_of_relevant_events_witness :
  3 = 3 ∧
  dict_get "order" [("order", 2); ("item", 3)] = Some 2 ∧
  dict_get "item" [("order", 2); ("item", 3)] = Some 3 ∧
  length (filter (λ rel, object_type rel = Some "order")
            (universal_relation shop_log)) = 1.
Proof.
  refine (proj2 (sub_count_counts_rows_of_relevant_events table_sizes
                   silent_view forward_set shop_log [] _ 3
                   [("order", 2); ("item", 3)] _ _) eq_refl).
  vm_compute. reflexivity.
Defined.

(** C4. In the sub-log of an object type every event row has a relation
    row with its event id and every object row has a relation row with
    its object id.  This holds for every log, so in particular for the
    referentially consistent ones. *)
Theorem sub_log_self_consistent (S : PySet) (ocel : OCEL) (t : string) :
  (∀ ev, ev ∈ events (sub_ocel S ocel (universal_relation ocel) t) →
     ∃ row, row ∈ relations (sub_ocel S ocel (universal_relation ocel) t) ∧
            rel_eid row = ev_eid ev) ∧
  (∀ ob, ob ∈ objects (sub_ocel S ocel (universal_relation ocel) t) →
     ∃ row, row ∈ relations (sub_ocel S ocel (universal_relation ocel) t) ∧
            rel_oid row = ob_oid ob).
Proof.
  cbn [sub_ocel events objects relations]. split.
  - intros ev [Hrel _]%list_elem_of_filter.
    pose proof Hrel as (row & Hrow & Heid & Ht)%elem_of_relevant_event_ids.
    exists row. split; [|done]. apply list_elem_of_filter. split; [|done].
    by rewrite Heid.
  - intros ob [Hoid _]%list_elem_of_filter.
    apply set_of_elem, list_elem_of_fmap in Hoid as (row & Hoid & Hrow).
    by exists row.
Qed.

Lemma sub_log_self_consistent_witness :
  (∃ row, row ∈ relations (sub_ocel backward_set shop_log
                             (universal_relation shop_log) "order") ∧
          rel_eid row = "e1") ∧
  (∃ row, row ∈ relations (sub_ocel backward_set shop_log
                             (universal_relation shop_log) "order") ∧
          rel_oid row = "o2").
Proof.
  split.
  - apply (proj1 (sub_log_self_consistent backward_set shop_log "order")
             (mkEvent "e1" [])).
    compute_done.
  - apply (proj2 (sub_log_self_consistent backward_set shop_log "order")
             (mkObject "o2" "item" [])).
    compute_done.
Defined.

(** C5. Both returned dictionaries have as keys the distinct object types
    of the Object table, each once, no other key, in the order in which
    the types first appear in the table: of two keys, the earlier one
    occurs in the type column at a row up to which the later one does not
    occur. *)
Theorem type_coverage {Model Err : Type}
    (discover_ocdfg : OCEL → Err + Model) (view_ocdfg : Model → Err + unit)
    (S : PySet) (ocel : OCEL) (c c' : list (Msg Model))
    (total : nat) (counts : dict nat) (models : dict Model) :
  discover_object_wise_sub_models_with_counts discover_ocdfg view_ocdfg
    S ocel c = (inr (total, counts, models), c') →
  dict_keys counts = object_types ocel ∧
  dict_keys models = object_types ocel ∧
  NoDup (dict_keys counts) ∧
  (∀ t, t ∈ dict_keys counts ↔ t ∈ ob_type <$> objects ocel) ∧
  (∀ i j a b,
     dict_keys counts !! i = Some a → dict_keys counts !! j = Some b →
     i < j →
     ∃ p, (ob_type <$> objects ocel) !! p = Some a ∧
          ∀ q, q ≤ p → (ob_type <$> objects ocel) !! q ≠ Some b).
Proof.
  intros (_ & -> & Hserved)%run_returns.
  apply served_keys in Hserved. rewrite Hserved, dict_keys_tabulate.
  unfold object_types. split_and!.
  - done.
  - done.
  - apply NoDup_unique.
  - intros t. apply elem_of_unique.
  - apply unique_first_seen.
Qed.

Lemma type_coverage_witness :
  dict_keys [("order", 2); ("item", 3)] = object_types shop_log ∧
  dict_keys [("order", (1, 2, 2)); ("item", (2, 2, 3))] =
    object_types shop_log ∧
  NoDup (dict_keys [("order", 2); ("item", 3)]) ∧
  (∀ t, t ∈ dict_keys [("order", 2); ("item", 3)] ↔
        t ∈ ob_type <$> objects shop_log) ∧
  (∀ i j a b,
     dict_keys [("order", 2); ("item", 3)] !! i = Some a →
     dict_keys [("order", 2); ("item", 3)] !! j = Some b →
     i < j →
     ∃ p, (ob_type <$> objects shop_log) !! p = Some a ∧
          ∀ q, q ≤ p → (ob_type <$> objects shop_log) !! q ≠ Some b).
Proof.
  refine (type_coverage table_sizes silent_view forward_set shop_log [] _ 3
            [("order", 2); ("item", 3)]
            [("order", (1, 2, 2)); ("item", (2, 2, 3))] _).
  vm_compute. reflexivity.
Defined.

(** C6, as the code has it.  The entry of a relation row whose object id
    is not in the Object table has no object type; it is an entry of the
    universal relation, whose length is the number of relation rows; it
    is selected for no object type, so it adds no event to a relevant
    event set; the row itself is in the sub_relations of a type exactly
    when some relation row of the same event resolves to this type; its
    object is in the objects of no sub-log; and the run raises only when
    a pm4py call does. *)
Theorem unresolved_reference_handling {Model Err : Type}
    (discover_ocdfg : OCEL → Err + Model) (view_ocdfg : Model → Err + unit)
    (S : PySet) (ocel : OCEL) (row : RelationRow) :
  row ∈ relations ocel →
  rel_oid row ∉ ob_oid <$> objects ocel →
  object_type (entry_of ocel row) = None ∧
  entry_of ocel row ∈ universal_relation ocel ∧
  length (universal_relation ocel) = length (relations ocel) ∧
  (∀ t, entry_of ocel row ∉
          filter (λ rel, object_type rel = Some t) (universal_relation ocel)) ∧
  (∀ t, row ∈ sub_relations ocel
                (relevant_event_ids (universal_relation ocel) t) ↔
        ∃ row', row' ∈ relations ocel ∧ rel_eid row' = rel_eid row ∧
                object_type (entry_of ocel row') = Some t) ∧
  (∀ t ob, ob ∈ objects (sub_ocel S ocel (universal_relation ocel) t) →
           ob_oid ob ≠ rel_oid row) ∧
  (∀ c,
     (∀ t, t ∈ object_types ocel →
        ∃ m, discover_ocdfg (sub_ocel S ocel (universal_relation ocel) t)
               = inr m ∧ view_ocdfg m = inr ()) →
     ∃ result,
       (discover_object_wise_sub_models_with_counts discover_ocdfg
          view_ocdfg S ocel c).1 = inr result).
Proof.
  intros Hrow Hnin.
  assert (object_type (entry_of ocel row) = None) as Hnone
    by (by apply object_id_to_type_None).
  split_and!.
  - done.
  - apply elem_of_universal_relation. by exists row.
  - apply length_universal_relation.
  - intros t [Ht _]%list_elem_of_filter. congruence.
  - intros t. rewrite elem_of_sub_relations. cbn. tauto.
  - intros t ob [_ Hob]%list_elem_of_filter Heq.
    apply Hnin. rewrite <- Heq. by apply list_elem_of_fmap_2.
  - intros c Hall.
    destruct (served_all _ _ _ _ _ _ Hall) as (models & HF).
    eexists. apply orchestrator_returns. done.
Qed.

Lemma unresolved_reference_handling_witness :
  object_type (entry_of dangling_log (mkRelation "e1" "oX" [])) = None ∧
  (∀ t ob,
     ob ∈ objects (sub_ocel forward_set dangling_log
                     (universal_relation dangling_log) t) →
     ob_oid ob ≠ "oX") ∧
  (∃ result,
     (discover_object_wise_sub_models_with_counts table_sizes silent_view
        forward_set dangling_log []).1 = inr result).
Proof.
  destruct (unresolved_reference_handling table_sizes silent_view
              forward_set dangling_log (mkRelation "e1" "oX" []))
    as (Hnone & _ & _ & _ & _ & Hobj & Hret); [compute_done..|].
  split_and!; [exact Hnone | exact Hobj |].
  apply Hret. intros t _. eexists. split; reflexivity.
Defined.

(** C6 as stated fails: in [dangling_log] the row (e1, oX) has an object
    id that is not in the Object table, and still it is a row of the
    sub-log of "order", whose recorded count 2 includes it. *)
Lemma unresolved_row_in_sub_log :
  mkRelation "e1" "oX" [] ∈ relations dangling_log ∧
  dict_get "oX" (object_id_to_type dangling_log) = None ∧
  object_types dangling_log = ["order"] ∧
  relations (sub_ocel forward_set dangling_log
               (universal_relation dangling_log) "order") =
    [mkRelation "e1" "o1" []; mkRelation "e1" "oX" []] ∧
  (discover_object_wise_sub_models_with_counts table_sizes silent_view
     forward_set dangling_log []).1 =
    inr (2, [("order", 2)], [("order", (1, 1, 2))]).
Proof. split_and!; compute_done. Qed.

(** C7. The universal relation is the list of entries of the relation
    rows grouped by event id: the groups come in the order in which the
    event ids first appear in the Relation table, each group holds the
    rows of its event in table order, and so the entries of one event id
    are next to each other.  Each entry has the event id and the object
    id of its row and the type that the Object-table mapping gives for
    the object id, which is the type of the last Object row with this id
    and is absent exactly when no Object row has it. *)
Theorem universal_relation_grouped_by_event (ocel : OCEL) :
  universal_relation ocel =
    entry_of ocel <$>
      (eid ← unique (rel_eid <$> relations ocel);
       filter (λ row, rel_eid row = eid) (relations ocel)) ∧
  spec_universal_relation ocel = universal_relation ocel ∧
  (∀ i j l x y z,
     universal_relation ocel !! i = Some x →
     universal_relation ocel !! j = Some y →
     universal_relation ocel !! l = Some z →
     i ≤ j → j ≤ l → event_id x = event_id z → event_id y = event_id x) ∧
  (∀ i j x y,
     universal_relation ocel !! i = Some x →
     universal_relation ocel !! j = Some y →
     i < j → event_id x ≠ event_id y →
     ∃ p, (rel_eid <$> relations ocel) !! p = Some (event_id x) ∧
          ∀ q, q ≤ p → (rel_eid <$> relations ocel) !! q ≠ Some (event_id y)) ∧
  (∀ eid,
     filter (λ entry, event_id entry = eid) (universal_relation ocel) =
       entry_of ocel <$> filter (λ row, rel_eid row = eid) (relations ocel)) ∧
  (∀ row, entry_of ocel row =
     {| event_id := rel_eid row; object_id := rel_oid row;
        object_type :=
          ob_type <$> last (filter (λ ob, ob_oid ob = rel_oid row)
                              (objects ocel)) |}) ∧
  (∀ row, object_type (entry_of ocel row) = None ↔
          rel_oid row ∉ ob_oid <$> objects ocel).
Proof.
  split_and!.
  - apply universal_relation_grouped.
  - symmetry. apply universal_relation_grouped.
  - rewrite universal_relation_groups. intros i j l x y z Hi Hj Hl.
    eapply (grouped_contiguous event_id); eauto using NoDup_unique.
    apply universal_relation_group_key.
  - rewrite universal_relation_groups. intros i j x y Hi Hj Hlt Hne.
    destruct (grouped_order event_id _ (universal_relation_group_key ocel)
                _ _ _ _ _ Hi Hj Hlt Hne) as (a & b & Hab & Ha & Hb).
    by eapply unique_first_seen.
  - intros eid. rewrite universal_relation_groups.
    destruct (decide (eid ∈ unique (rel_eid <$> relations ocel)))
      as [Hin|Hnin].
    + apply (grouped_filter event_id); [|apply NoDup_unique|done].
      apply universal_relation_group_key.
    + rewrite (filter_none (λ row, rel_eid row = eid)).
      * apply filter_none. intros entry (k & Hentry & Hk)%list_elem_of_bind.
        apply universal_relation_group_key in Hentry. congruence.
      * intros row Hrow Heid. apply Hnin, elem_of_unique.
        rewrite <- Heid. by apply list_elem_of_fmap_2.
  - intros row. unfold entry_of. by rewrite object_id_to_type_last.
  - intros row. apply object_id_to_type_None.
Qed.

Lemma universal_relation_grouped_by_event_witness :
  universal_relation interleaved_log !! 1 =
    Some (mkEntry "e1" "o2" (Some "item")) ∧
  universal_relation interleaved_log !! 2 =
    Some (mkEntry "e2" "o2" (Some "item")) ∧
  ∃ p, (rel_eid <$> relations interleaved_log) !! p = Some "e1" ∧
       ∀ q, q ≤ p → (rel_eid <$> relations interleaved_log) !! q ≠ Some "e2".
Proof.
  split_and!; [reflexivity..|].
  apply (proj1 (proj2 (proj2 (proj2
           (universal_relation_grouped_by_event interleaved_log)))) 1 2
           (mkEntry "e1" "o2" (Some "item"))
           (mkEntry "e2" "o2" (Some "item")));
    [reflexivity | reflexivity | lia | done].
Defined.

(** On [interleaved_log] the two rows of e1 are brought together, before
    the row of e2 that stands between them in the table. *)
Example universal_relation_interleaved :
  universal_relation interleaved_log =
    [ mkEntry "e1" "o1" (Some "order"); mkEntry "e1" "o2" (Some "item");
      mkEntry "e2" "o2" (Some "item") ].
Proof. reflexivity. Qed.

(** C8. The relevant events act as a set.  The list of relevant event
    ids of a type holds an event id once for every relation row of the
    event that resolves to the type, so an event with several such rows
    is listed several times; yet an Event row is in the type's
    sub_events as often as the Event table has it when its event has at
    least one such row, however many, and not at all otherwise, and
    likewise a Relation row in sub_relations.  The two tables are the
    same when the list is replaced by any enumeration of its members
    without repetition, and they keep the table order. *)
Theorem relevant_events_act_as_set (S : PySet) (ocel : OCEL) (t : string) :
  (∀ eid,
     length (filter (λ x, x = eid)
               (relevant_event_ids (universal_relation ocel) t)) =
     length (filter (λ row, rel_eid row = eid ∧
                            object_type (entry_of ocel row) = Some t)
               (relations ocel))) ∧
  (∀ ev,
     length (filter (λ x, x = ev)
               (sub_events ocel
                  (relevant_event_ids (universal_relation ocel) t))) =
       if decide (Exists (λ row, rel_eid row = ev_eid ev ∧
                                 object_type (entry_of ocel row) = Some t)
                         (relations ocel))
       then length (filter (λ x, x = ev) (events ocel)) else 0) ∧
  (∀ row,
     length (filter (λ x, x = row)
               (sub_relations ocel
                  (relevant_event_ids (universal_relation ocel) t))) =
       if decide (Exists (λ row', rel_eid row' = rel_eid row ∧
                                  object_type (entry_of ocel row') = Some t)
                         (relations ocel))
       then length (filter (λ x, x = row) (relations ocel)) else 0) ∧
  (∀ ev,
     NoDup (events ocel) → ev ∈ events ocel →
     (∃ row, row ∈ relations ocel ∧ rel_eid row = ev_eid ev ∧
             object_type (entry_of ocel row) = Some t) →
     filter (λ x, x = ev)
       (sub_events ocel (relevant_event_ids (universal_relation ocel) t)) =
       [ev]) ∧
  sub_events ocel (relevant_event_ids (universal_relation ocel) t) =
    sub_events ocel
      (set_of S (relevant_event_ids (universal_relation ocel) t)) ∧
  sub_relations ocel (relevant_event_ids (universal_relation ocel) t) =
    sub_relations ocel
      (set_of S (relevant_event_ids (universal_relation ocel) t)) ∧
  sub_events ocel (relevant_event_ids (universal_relation ocel) t)
    `sublist_of` events ocel ∧
  sub_relations ocel (relevant_event_ids (universal_relation ocel) t)
    `sublist_of` relations ocel.
Proof.
  assert (∀ eid,
    eid ∈ relevant_event_ids (universal_relation ocel) t ↔
    Exists (λ row, rel_eid row = eid ∧
                   object_type (entry_of ocel row) = Some t)
           (relations ocel)) as Hmem.
  { intros eid. rewrite elem_of_relevant_event_ids, Exists_exists.
    naive_solver. }
  unfold sub_events, sub_relations. split_and!.
  - intros eid. unfold relevant_event_ids.
    rewrite filter_fmap, length_fmap, list_filter_filter.
    rewrite universal_relation_Permutation, filter_fmap, length_fmap.
    done.
  - intros ev. rewrite filter_eq_filter.
    destruct (decide (ev_eid ev ∈ _)) as [Hin|Hnin].
    + rewrite decide_True; [done | by apply Hmem].
    + rewrite decide_False; [done | by rewrite <- Hmem].
  - intros row. rewrite filter_eq_filter.
    destruct (decide (rel_eid row ∈ _)) as [Hin|Hnin].
    + rewrite decide_True; [done | by apply Hmem].
    + rewrite decide_False; [done | by rewrite <- Hmem].
  - intros ev Hnd Hev Hrow. rewrite filter_eq_filter.
    rewrite decide_True
      by (apply Hmem, Exists_exists; naive_solver).
    clear Hrow Hmem. induction Hnd as [|ev' evs Hnin Hnd IH];
      [by apply elem_of_nil in Hev|].
    apply elem_of_cons in Hev as [->|Hev].
    + rewrite filter_cons_True by done. f_equal.
      apply filter_none. by intros x Hx ->.
    + rewrite filter_cons_False; [by apply IH | by intros ->].
  - apply list_filter_iff. intros ev. by rewrite set_of_elem.
  - apply list_filter_iff. intros row. by rewrite set_of_elem.
  - apply sublist_filter.
  - apply sublist_filter.
Qed.

Lemma relevant_events_act_as_set_witness :
  length (filter (λ x, x = "e1")
            (relevant_event_ids (universal_relation two_items_log) "item"))
    = 2 ∧
  filter (λ x, x = mkEvent "e1" [])
    (sub_events two_items_log
       (relevant_event_ids (universal_relation two_items_log) "item")) =
    [mkEvent "e1" []].
Proof.
  destruct (relevant_events_act_as_set forward_set two_items_log "item")
    as (Hlist & _ & _ & Honce & _).
  split.
  - exact (Hlist "e1").
  - apply Honce; [compute_done | compute_done |].
    exists (mkRelation "e1" "o2" []). split_and!; compute_done.
Defined.

(** On [two_items_log] the event e1 is listed twice among the relevant
    events of "item" and is once in the sub-log's events. *)
Example relevant_events_two_items :
  relevant_event_ids (universal_relation two_items_log) "item" =
    ["e1"; "e1"] ∧
  sub_events two_items_log
    (relevant_event_ids (universal_relation two_items_log) "item") =
    [mkEvent "e1" []] ∧
  sub_relations two_items_log
    (relevant_event_ids (universal_relation two_items_log) "item") =
    relations two_items_log.
Proof. split_and!; reflexivity. Qed.

(** C9. Two runs on the same log with the same pm4py behaviour return the
    same result, count for count and model for model in the same order,
    print the same lines and build the same sub-logs, whatever the
    enumeration orders of the interpreter's sets and whatever was on the
    console before each run. *)
Theorem orchestrator_deterministic {Model Err : Type}
    (discover_ocdfg : OCEL → Err + Model) (view_ocdfg : Model → Err + unit)
    (S1 S2 : PySet) (ocel : OCEL) (c1 c2 : list (Msg Model)) :
  (discover_object_wise_sub_models_with_counts discover_ocdfg view_ocdfg
     S1 ocel c1).1 =
  (discover_object_wise_sub_models_with_counts discover_ocdfg view_ocdfg
     S2 ocel c2).1 ∧
  (∃ out,
     (discover_object_wise_sub_models_with_counts discover_ocdfg view_ocdfg
        S1 ocel c1).2 = c1 ++ out ∧
     (discover_object_wise_sub_models_with_counts discover_ocdfg view_ocdfg
        S2 ocel c2).2 = c2 ++ out) ∧
  (∀ t, sub_ocel S1 ocel (universal_relation ocel) t =
        sub_ocel S2 ocel (universal_relation ocel) t).
Proof.
  destruct (orchestrator_stable discover_ocdfg view_ocdfg S1 S2 ocel c1 c2)
    as [Hres Hout].
  split_and!; [done | done |]. intros t. apply sub_ocel_set_irrelevant.
Qed.

(** The two set implementations of the examples do enumerate differently,
    and the run on the scenario is the same under both. *)
Example deterministic_on_shop_log :
  related_object_ids forward_set (relations shop_log) ≠
    related_object_ids backward_set (relations shop_log) ∧
  (discover_object_wise_sub_models_with_counts table_sizes silent_view
     forward_set shop_log []).1 =
    inr (3, [("order", 2); ("item", 3)],
         [("order", (1, 2, 2)); ("item", (2, 2, 3))]) ∧
  (discover_object_wise_sub_models_with_counts table_sizes silent_view
     backward_set shop_log []).1 =
    inr (3, [("order", 2); ("item", 3)],
         [("order", (1, 2, 2)); ("item", (2, 2, 3))]).
Proof. split_and!; compute_done. Qed.

(** C10. The count recorded for an object type of the Object table is at
    least the number of universal-relation entries of this type; it is
    at least 1 when some relation row resolves to the type and 0 when
    none does. *)
Theorem sub_count_lower_bound {Model Err : Type}
    (discover_ocdfg : OCEL → Err + Model) (view_ocdfg : Model → Err + unit)
    (S : PySet) (ocel : OCEL) (c c' : list (Msg Model))
    (total : nat) (counts : dict nat) (models : dict Model) (t : string) :
  discover_object_wise_sub_models_with_counts discover_ocdfg view_ocdfg
    S ocel c = (inr (total, counts, models), c') →
  t ∈ object_types ocel →
  ∃ n, dict_get t counts = Some n ∧
    length (filter (λ rel, object_type rel = Some t)
              (universal_relation ocel)) ≤ n ∧
    ((∃ row, row ∈ relations ocel ∧
             object_type (entry_of ocel row) = Some t) → 1 ≤ n) ∧
    ((∀ row, row ∈ relations ocel →
             object_type (entry_of ocel row) ≠ Some t) → n = 0).
Proof.
  intros (_ & -> & _)%run_returns Ht.
  exists (sub_relation_count ocel t).
  assert (length (filter (λ rel, object_type rel = Some t)
                    (universal_relation ocel)) ≤ sub_relation_count ocel t)
    as Hle.
  { rewrite universal_relation_Permutation, filter_fmap, length_fmap.
    unfold sub_relation_count, sub_relations.
    apply length_filter_mono. intros row Hrow Hres.
    apply elem_of_relevant_event_ids. by exists row. }
  split_and!.
  - rewrite dict_get_tabulate. by rewrite decide_True.
  - done.
  - intros (row & Hrow & Hres).
    assert (row ∈ sub_relations ocel
              (relevant_event_ids (universal_relation ocel) t)) as Hin.
    { apply elem_of_sub_relations. split; [done|]. by exists row. }
    unfold sub_relation_count.
    destruct (sub_relations ocel _); [by apply elem_of_nil in Hin | cbn; lia].
  - intros Hnone. unfold sub_relation_count, sub_relations.
    rewrite filter_none; [done|].
    intros row _ (row' & Hrow' & _ & Hres)%elem_of_relevant_event_ids.
    by apply (Hnone row').
Qed.

Lemma sub_count_lower_bound_witness :
  ∃ n, dict_get "order" [("order", 2); ("item", 3)] = Some n ∧
    length (filter (λ rel, object_type rel = Some "order")
              (universal_relation shop_log)) ≤ n ∧
    ((∃ row, row ∈ relations shop_log ∧
             object_type (entry_of shop_log row) = Some "order") → 1 ≤ n) ∧
    ((∀ row, row ∈ relations shop_log →
             object_type (entry_of shop_log row) ≠ Some "order") → n = 0).
Proof.
  refine (sub_count_lower_bound table_sizes silent_view forward_set shop_log
            [] _ 3 [("order", 2); ("item", 3)] _ "order" _ _);
    [vm_compute; reflexivity | compute_done].
Defined.

(** * Further properties of the code *)

(** ** Failure and output of a run *)

Section outcome_facts.
Context {Model Err : Type}.
Variable discover_ocdfg : OCEL → Err + Model.
Variable view_ocdfg : Model → Err + unit.
Variable S : PySet.
Variable ocel : OCEL.
Variable ur : list Entry.

Local Abbreviation step :=
  (_discover_sub_model_for_object_type discover_ocdfg view_ocdfg S ocel ur).
Local Abbreviation loop :=
  (discover_loop discover_ocdfg view_ocdfg S ocel ur).
Local Abbreviation trace := (step_trace discover_ocdfg S ocel ur).

Lemma step_succeeds t c :
  succeeds discover_ocdfg view_ocdfg S ocel ur t →
  ∃ m, discover_ocdfg (sub_ocel S ocel ur t) = inr m ∧
       step t c =
         (inr (length (sub_relations ocel (relevant_event_ids ur t)), m),
          c ++ trace t).
Proof.
  intros (m & Hd & Hv). exists m. split; [done|].
  rewrite sub_model_run. unfold step_trace. cbn zeta. rewrite Hd, Hv.
  by rewrite <- (assoc_L (++)).
Qed.

Lemma step_fails t e c :
  fails_with discover_ocdfg view_ocdfg S ocel ur t e →
  step t c = (inl e, c ++ trace t).
Proof.
  rewrite sub_model_run. unfold step_trace. cbn zeta.
  intros [Hd|(m & Hd & Hv)]; rewrite Hd.
  - done.
  - rewrite Hv. by rewrite <- (assoc_L (++)).
Qed.

Lemma loop_succeeds ts : ∀ cs ms c,
  (∀ t, t ∈ ts → succeeds discover_ocdfg view_ocdfg S ocel ur t) →
  ∃ cs' ms', loop ts cs ms c = (inr (cs', ms'), c ++ (ts ≫= trace)).
Proof.
  induction ts as [|t ts IH]; intros cs ms c Hall.
  - exists cs, ms. cbn. by rewrite app_nil_r.
  - destruct (step_succeeds t c) as (m & _ & Hstep); [apply Hall; by left|].
    cbn [discover_loop]. rewrite bind_run, Hstep.
    edestruct IH as (cs' & ms' & Hloop); [intros; apply Hall; by right|].
    rewrite Hloop. exists cs', ms'. by rewrite bind_cons, (assoc_L (++)).
Qed.

Lemma loop_fails ts1 t ts2 e : ∀ cs ms c,
  (∀ t', t' ∈ ts1 → succeeds discover_ocdfg view_ocdfg S ocel ur t') →
  fails_with discover_ocdfg view_ocdfg S ocel ur t e →
  loop (ts1 ++ t :: ts2) cs ms c = (inl e, c ++ ((ts1 ++ [t]) ≫= trace)).
Proof.
  induction ts1 as [|t1 ts1 IH]; intros cs ms c Hall Hfail.
  - cbn [app discover_loop]. rewrite bind_run, (step_fails t e) by done.
    by rewrite bind_singleton.
  - destruct (step_succeeds t1 c) as (m & _ & Hstep); [apply Hall; by left|].
    cbn [app discover_loop]. rewrite bind_run, Hstep.
    rewrite IH; [|intros; apply Hall; by right|done].
    by rewrite bind_cons, (assoc_L (++)).
Qed.

End outcome_facts.

Lemma served_succeeds {Model Err : Type}
    (discover_ocdfg : OCEL → Err + Model) (view_ocdfg : Model → Err + unit)
    S ocel ur ts (models : dict Model) t :
  Forall2 (served discover_ocdfg view_ocdfg S ocel ur) ts models →
  t ∈ ts → succeeds discover_ocdfg view_ocdfg S ocel ur t.
Proof.
  induction 1 as [|t' km ts models (Hk & Hd & Hv) _ IH]; intros Hin.
  - by apply elem_of_nil in Hin.
  - apply elem_of_cons in Hin as [->|Hin]; [by exists km.2 | auto].
Qed.

(** X1. The run stops at the first object type, in the order of the
    types, for which discovery or the viewer raises: it raises this
    error, has printed the total and the lines of the types up to this
    one, and prints neither a later type nor the summary. *)
Theorem run_aborts_at_first_failure {Model Err : Type}
    (discover_ocdfg : OCEL → Err + Model) (view_ocdfg : Model → Err + unit)
    (S : PySet) (ocel : OCEL) (c : list (Msg Model))
    (ts1 ts2 : list string) (t : string) (e : Err) :
  object_types ocel = ts1 ++ t :: ts2 →
  (∀ t', t' ∈ ts1 →
     succeeds discover_ocdfg view_ocdfg S ocel (universal_relation ocel) t') →
  fails_with discover_ocdfg view_ocdfg S ocel (universal_relation ocel) t e →
  discover_object_wise_sub_models_with_counts discover_ocdfg view_ocdfg
    S ocel c =
    (inl e,
     c ++ PrintTotal (length (relations ocel)) ::
       ((ts1 ++ [t]) ≫=
          step_trace discover_ocdfg S ocel (universal_relation ocel))).
Proof.
  intros Hts Hok Hfail.
  unfold discover_object_wise_sub_models_with_counts.
  rewrite bind_run, extract_run, bind_run.
  fold (object_types ocel). rewrite Hts.
  rewrite (loop_fails _ _ _ _ _ ts1 t ts2 e) by done.
  by rewrite <- (assoc_L (++)).
Qed.

Lemma run_aborts_at_first_failure_witness :
  discover_object_wise_sub_models_with_counts picky_sizes silent_view
    forward_set idle_type_log [] =
    (inl "empty sub-log",
     [] ++ PrintTotal (length (relations idle_type_log)) ::
       ((["order"; "item"] ++ ["pallet"]) ≫=
          step_trace picky_sizes forward_set idle_type_log
            (universal_relation idle_type_log))).
Proof.
  apply (run_aborts_at_first_failure picky_sizes silent_view forward_set
           idle_type_log [] ["order"; "item"] [] "pallet").
  - reflexivity.
  - intros t' Ht'. eexists. split; [|reflexivity].
    apply elem_of_cons in Ht' as [->|Ht']; [reflexivity|].
    apply list_elem_of_singleton in Ht' as ->. reflexivity.
  - left. reflexivity.
Defined.

(** X2. A run that returns has printed, after what was on the console,
    the total, then for each object type in order its two lines and its
    model, then the summary header and one summary line per item of the
    returned counts, in the order of the dictionary. *)
Theorem run_output {Model Err : Type}
    (discover_ocdfg : OCEL → Err + Model) (view_ocdfg : Model → Err + unit)
    (S : PySet) (ocel : OCEL) (c c' : list (Msg Model))
    (total : nat) (counts : dict nat) (models : dict Model) :
  discover_object_wise_sub_models_with_counts discover_ocdfg view_ocdfg
    S ocel c = (inr (total, counts, models), c') →
  c' = c ++ PrintTotal total ::
         (object_types ocel ≫=
            step_trace discover_ocdfg S ocel (universal_relation ocel))
         ++ PrintSummaryHeader ::
            ((λ kv, PrintSummaryLine kv.1 kv.2) <$> dict_items counts).
Proof.
  intros Hrun. pose proof (run_returns _ _ _ _ _ _ _ _ _ Hrun)
    as (-> & _ & Hserved).
  revert Hrun. unfold discover_object_wise_sub_models_with_counts.
  rewrite bind_run, extract_run, bind_run. fold (object_types ocel).
  destruct (loop_succeeds discover_ocdfg view_ocdfg S ocel
              (universal_relation ocel) (object_types ocel) [] []
              (c ++ [PrintTotal (length (relations ocel))]))
    as (cs & ms & ->).
  { intros t Ht. by eapply served_succeeds. }
  rewrite bind_run. cbn. rewrite bind_run, summary_run. cbn.
  intros [= <- <- <-]. by rewrite <- !(assoc_L (++)).
Qed.

Lemma run_output_witness :
  [ PrintTotal 3;
    PrintPerspective "order"; PrintTypeCount "order" 2; ViewOcdfg (1, 2, 2);
    PrintPerspective "item"; PrintTypeCount "item" 3; ViewOcdfg (2, 2, 3);
    PrintSummaryHeader;
    PrintSummaryLine "order" 2; PrintSummaryLine "item" 3 ] =
  [] ++ PrintTotal 3 ::
    (object_types shop_log ≫=
       step_trace table_sizes forward_set shop_log
         (universal_relation shop_log))
    ++ PrintSummaryHeader ::
       ((λ kv, PrintSummaryLine kv.1 kv.2) <$>
          dict_items [("order", 2); ("item", 3)]).
Proof.
  refine (run_output table_sizes silent_view forward_set shop_log [] _ 3
            [("order", 2); ("item", 3)]
            [("order", (1, 2, 2)); ("item", (2, 2, 3))] _).
  vm_compute. reflexivity.
Defined.

(** ** Edge cases of the sub-log *)

Lemma relevant_event_ids_nil ocel t :
  (∀ row, row ∈ relations ocel → object_type (entry_of ocel row) ≠ Some t) →
  relevant_event_ids (universal_relation ocel) t = [].
Proof.
  intros Hnone. apply elem_of_nil_inv. intros eid.
  rewrite elem_of_relevant_event_ids. intros (row & Hrow & _ & Ht).
  by apply (Hnone row).
Qed.

Lemma sub_ocel_nil S ocel ur t :
  relevant_event_ids ur t = [] → sub_ocel S ocel ur t = mkOCEL [] [] [].
Proof.
  intros Hnil. unfold sub_ocel. rewrite Hnil.
  assert (sub_relations ocel [] = []) as ->.
  { apply filter_none. intros row _. apply not_elem_of_nil. }
  f_equal.
  - apply filter_none. intros row _. apply not_elem_of_nil.
  - apply filter_none. intros row _. unfold related_object_ids.
    rewrite set_of_elem. apply not_elem_of_nil.
Qed.

(** X3. An object type to which no relation row resolves is not skipped:
    its sub-log has three empty tables, and the step still runs
    discovery and the viewer on it, returning the count 0 with the model
    or raising what they raise. *)
Theorem empty_partition_is_discovered {Model Err : Type}
    (discover_ocdfg : OCEL → Err + Model) (view_ocdfg : Model → Err + unit)
    (S : PySet) (ocel : OCEL) (t : string) (c : list (Msg Model)) :
  (∀ row, row ∈ relations ocel → object_type (entry_of ocel row) ≠ Some t) →
  sub_ocel S ocel (universal_relation ocel) t = mkOCEL [] [] [] ∧
  (_discover_sub_model_for_object_type discover_ocdfg view_ocdfg S ocel
     (universal_relation ocel) t c).1 =
    match discover_ocdfg (mkOCEL [] [] []) with
    | inl e => inl e
    | inr m => match view_ocdfg m with
               | inl e => inl e
               | inr _ => inr (0, m)
               end
    end.
Proof.
  intros Hnone%relevant_event_ids_nil.
  pose proof (sub_ocel_nil S ocel _ t Hnone) as Hsub. split; [done|].
  rewrite sub_model_run. cbn zeta. rewrite Hsub, Hnone.
  assert (sub_relations ocel [] = []) as ->.
  { apply filter_none. intros row _. apply not_elem_of_nil. }
  destruct (discover_ocdfg _) as [e|m]; [done|].
  by destruct (view_ocdfg m) as [e|[]].
Qed.

Lemma empty_partition_is_discovered_witness :
  sub_ocel forward_set idle_type_log (universal_relation idle_type_log)
    "pallet" = mkOCEL [] [] [] ∧
  (_discover_sub_model_for_object_type picky_sizes silent_view forward_set
     idle_type_log (universal_relation idle_type_log) "pallet" []).1 =
    match picky_sizes (mkOCEL [] [] []) with
    | inl e => inl e
    | inr m => match silent_view m with
               | inl e => inl e
               | inr _ => inr (0, m)
               end
    end.
Proof.
  apply (empty_partition_is_discovered picky_sizes silent_view forward_set
           idle_type_log "pallet" []).
  intros row Hrow. repeat (apply elem_of_cons in Hrow as [->|Hrow]);
    [compute_done..|]. by apply elem_of_nil in Hrow.
Defined.

(** X4. On a log with an empty Object table the run calls neither
    discovery nor the viewer: it returns the number of relation rows with
    two empty dictionaries and prints the total and the summary header. *)
Theorem run_without_objects {Model Err : Type}
    (discover_ocdfg : OCEL → Err + Model) (view_ocdfg : Model → Err + unit)
    (S : PySet) (ocel : OCEL) (c : list (Msg Model)) :
  objects ocel = [] →
  discover_object_wise_sub_models_with_counts discover_ocdfg view_ocdfg
    S ocel c =
    (inr (length (relations ocel), [], []),
     c ++ [PrintTotal (length (relations ocel)); PrintSummaryHeader]).
Proof.
  intros Hobj. unfold discover_object_wise_sub_models_with_counts.
  rewrite bind_run, extract_run, Hobj. cbn.
  unfold mbind, M_bind, bind, emit, ret. cbn.
  by rewrite <- (assoc_L (++)).
Qed.

Lemma run_without_objects_witness :
  discover_object_wise_sub_models_with_counts picky_sizes silent_view
    forward_set (mkOCEL (events shop_log) [] (relations shop_log)) [] =
    (inr (3, [], []), [] ++ [PrintTotal 3; PrintSummaryHeader]).
Proof.
  apply (run_without_objects picky_sizes silent_view forward_set
           (mkOCEL (events shop_log) [] (relations shop_log)) []).
  reflexivity.
Defined.

(** X5. A relation row of a sub-log whose event is in the Event table of
    the log has its event in the sub-log's events, and one whose object
    is in the Object table has its object in the sub-log's objects: the
    sub-log of a referentially consistent log is referentially
    consistent. *)
Theorem sub_log_keeps_references (S : PySet) (ocel : OCEL) (t : string)
    (row : RelationRow) :
  row ∈ relations (sub_ocel S ocel (universal_relation ocel) t) →
  (rel_eid row ∈ ev_eid <$> events ocel →
   rel_eid row ∈
     ev_eid <$> events (sub_ocel S ocel (universal_relation ocel) t)) ∧
  (rel_oid row ∈ ob_oid <$> objects ocel →
   rel_oid row ∈
     ob_oid <$> objects (sub_ocel S ocel (universal_relation ocel) t)).
Proof.
  cbn [sub_ocel events objects relations]. intros Hrow.
  pose proof Hrow as [Hrel _]%list_elem_of_filter. split.
  - intros (ev & Heid & Hev)%list_elem_of_fmap.
    apply list_elem_of_fmap. exists ev. split; [done|].
    apply list_elem_of_filter. split; [by rewrite <- Heid | done].
  - intros (ob & Hoid & Hob)%list_elem_of_fmap.
    apply list_elem_of_fmap. exists ob. split; [done|].
    apply list_elem_of_filter. split; [|done].
    apply set_of_elem. rewrite <- Hoid. by apply list_elem_of_fmap_2.
Qed.

Lemma sub_log_keeps_references_witness :
  ("e1" ∈ ev_eid <$> events shop_log →
   "e1" ∈ ev_eid <$> events (sub_ocel backward_set shop_log
                               (universal_relation shop_log) "order")) ∧
  ("o2" ∈ ob_oid <$> objects shop_log →
   "o2" ∈ ob_oid <$> objects (sub_ocel backward_set shop_log
                                (universal_relation shop_log) "order")).
Proof.
  apply (sub_log_keeps_references backward_set shop_log "order"
           (mkRelation "e1" "o2" [])).
  compute_done.
Defined.

(** X6. The events of the sub-log of a type are the events of the log
    that have a relation row resolving to the type; its objects are the
    objects of the log related to such an event, of whatever type.  An
    object of the type itself that no relation row names is left out. *)
Theorem sub_log_membership (S : PySet) (ocel : OCEL) (t : string) :
  (∀ ev, ev ∈ events (sub_ocel S ocel (universal_relation ocel) t) ↔
     ev ∈ events ocel ∧
     ∃ row, row ∈ relations ocel ∧ rel_eid row = ev_eid ev ∧
            object_type (entry_of ocel row) = Some t) ∧
  (∀ ob, ob ∈ objects (sub_ocel S ocel (universal_relation ocel) t) ↔
     ob ∈ objects ocel ∧
     ∃ row row', row ∈ relations ocel ∧ row' ∈ relations ocel ∧
       rel_oid row = ob_oid ob ∧ rel_eid row' = rel_eid row ∧
       object_type (entry_of ocel row') = Some t) ∧
  (∀ ob, ob_oid ob ∉ rel_oid <$> relations ocel →
     ob ∉ objects (sub_ocel S ocel (universal_relation ocel) t)).
Proof.
  cbn [sub_ocel events objects relations].
  assert (∀ ob,
    ob ∈ related_objects ocel (related_object_ids S (sub_relations ocel
           (relevant_event_ids (universal_relation ocel) t))) ↔
    ob ∈ objects ocel ∧
    ∃ row row', row ∈ relations ocel ∧ row' ∈ relations ocel ∧
      rel_oid row = ob_oid ob ∧ rel_eid row' = rel_eid row ∧
      object_type (entry_of ocel row') = Some t) as Hobjects.
  { intros ob. unfold related_objects, related_object_ids.
    rewrite list_elem_of_filter, set_of_elem, list_elem_of_fmap.
    split.
    - intros [(row & Hoid & Hrow) Hob]. split; [done|].
      apply elem_of_sub_relations in Hrow
        as (Hrow & row' & Hrow' & Heid & Ht).
      by exists row, row'.
    - intros (Hob & row & row' & Hrow & Hrow' & Hoid & Heid & Ht).
      split; [|done]. exists row. split; [done|].
      apply elem_of_sub_relations. split; [done|]. by exists row'. }
  split_and!.
  - intros ev. unfold sub_events.
    rewrite list_elem_of_filter, elem_of_relevant_event_ids. tauto.
  - done.
  - intros ob Hnin (_ & row & _ & Hrow & _ & Hoid & _)%Hobjects.
    apply Hnin. rewrite <- Hoid. by apply list_elem_of_fmap_2.
Qed.

Lemma sub_log_membership_witness :
  mkObject "o1" "order" [] ∈
    objects (sub_ocel forward_set shop_log (universal_relation shop_log)
               "item").
Proof.
  apply (proj1 (proj2 (sub_log_membership forward_set shop_log "item"))
           (mkObject "o1" "order" [])).
  split; [compute_done|].
  exists (mkRelation "e1" "o1" []), (mkRelation "e1" "o2" []).
  split_and!; compute_done.
Defined.

(** ** Counts and models of a returning run *)

Lemma sum_list_filter_cons {A} (P : string → A → Prop)
    `{!∀ t x, Decision (P t x)} (ts : list string) (x : A) (l : list A) :
  sum_list ((λ t, length (filter (P t) (x :: l))) <$> ts) =
    length (filter (λ t, P t x) ts) +
    sum_list ((λ t, length (filter (P t) l)) <$> ts).
Proof.
  induction ts as [|t ts IH]; [done|].
  rewrite !fmap_cons. cbn [sum_list sum_list_with id]. rewrite IH.
  rewrite (filter_cons (λ t, P t x)), (filter_cons (P t)).
  destruct (decide (P t x)); cbn; lia.
Qed.

(** A list is no longer than the selections of a family that covers it
    are together. *)
Lemma length_le_sum_filters {A} (P : string → A → Prop)
    `{!∀ t x, Decision (P t x)} (ts : list string) (l : list A) :
  (∀ x, x ∈ l → ∃ t, t ∈ ts ∧ P t x) →
  length l ≤ sum_list ((λ t, length (filter (P t) l)) <$> ts).
Proof.
  induction l as [|x l IH]; intros Hcover; [cbn; lia|].
  rewrite sum_list_filter_cons.
  assert (1 ≤ length (filter (λ t, P t x) ts)) as Hone.
  { destruct (Hcover x) as (t & Ht & HP); [by left|].
    assert (t ∈ filter (λ t, P t x) ts) as Hin
      by (by apply list_elem_of_filter).
    destruct (filter _ ts); [by apply elem_of_nil in Hin | cbn; lia]. }
  assert (length l ≤ sum_list ((λ t, length (filter (P t) l)) <$> ts)).
  { apply IH. intros y Hy. apply Hcover. by right. }
  cbn [length]. lia.
Qed.

(** A type that the mapping gives is a type of the Object table. *)
Lemma resolved_type_in_table ocel oid t :
  dict_get oid (object_id_to_type ocel) = Some t → t ∈ object_types ocel.
Proof.
  rewrite object_id_to_type_last. intros (ob & Hlast & ->)%fmap_Some.
  apply last_Some_elem_of, list_elem_of_filter in Hlast as [_ Hob].
  apply elem_of_unique. by apply list_elem_of_fmap_2.
Qed.

(** X7. In a returning run no per-type count exceeds the total; and when
    every relation row names an object of the Object table, the per-type
    counts add up to at least the total, a row being counted once for
    every type that its event touches. *)
Theorem counts_overlap {Model Err : Type}
    (discover_ocdfg : OCEL → Err + Model) (view_ocdfg : Model → Err + unit)
    (S : PySet) (ocel : OCEL) (c c' : list (Msg Model))
    (total : nat) (counts : dict nat) (models : dict Model) :
  discover_object_wise_sub_models_with_counts discover_ocdfg view_ocdfg
    S ocel c = (inr (total, counts, models), c') →
  (∀ t n, (t, n) ∈ dict_items counts → n ≤ total) ∧
  ((∀ row, row ∈ relations ocel → rel_oid row ∈ ob_oid <$> objects ocel) →
   total ≤ sum_list (dict_items counts).*2).
Proof.
  intros (-> & -> & _)%run_returns. unfold dict_items, tabulate. split.
  - intros t n (t' & [= -> ->] & _)%list_elem_of_fmap.
    apply length_filter.
  - intros Hres. rewrite <- list_fmap_compose.
    apply (length_le_sum_filters
             (λ t row, rel_eid row ∈
                relevant_event_ids (universal_relation ocel) t)).
    intros row Hrow.
    destruct (dict_get (rel_oid row) (object_id_to_type ocel)) as [t|] eqn:Ht.
    + exists t. split; [by eapply resolved_type_in_table|].
      apply elem_of_relevant_event_ids. by exists row.
    + apply object_id_to_type_None in Ht. destruct Ht. by apply Hres.
Qed.

Lemma counts_overlap_witness :
  (∀ t n, (t, n) ∈ dict_items [("order", 2); ("item", 3)] → n ≤ 3) ∧
  ((∀ row, row ∈ relations shop_log →
           rel_oid row ∈ ob_oid <$> objects shop_log) →
   3 ≤ sum_list (dict_items [("order", 2); ("item", 3)]).*2).
Proof.
  refine (counts_overlap table_sizes silent_view forward_set shop_log [] _ 3
            [("order", 2); ("item", 3)]
            [("order", (1, 2, 2)); ("item", (2, 2, 3))] _).
  vm_compute. reflexivity.
Defined.

Lemma served_lookup {Model Err : Type}
    (discover_ocdfg : OCEL → Err + Model) (view_ocdfg : Model → Err + unit)
    S ocel ur ts (models : dict Model) t :
  Forall2 (served discover_ocdfg view_ocdfg S ocel ur) ts models →
  NoDup ts → t ∈ ts →
  ∃ m, dict_get t models = Some m ∧
       discover_ocdfg (sub_ocel S ocel ur t) = inr m ∧
       view_ocdfg m = inr ().
Proof.
  induction 1 as [|t' [k m] ts models (Hk & Hd & Hv) _ IH];
    intros Hnd Hin.
  - by apply elem_of_nil in Hin.
  - cbn in Hk, Hd, Hv. subst k. apply NoDup_cons in Hnd as [Hnin Hnd].
    cbn [dict_get]. destruct (decide (t' = t)) as [->|Hne].
    + by exists m.
    + apply IH; [done|]. apply elem_of_cons in Hin. naive_solver.
Qed.

(** X8. The model that a returning run records for an object type is the
    value that discovery returned for the sub-log of this type, passed
    on unchanged, and the viewer has returned on it. *)
Theorem models_are_discovery_results {Model Err : Type}
    (discover_ocdfg : OCEL → Err + Model) (view_ocdfg : Model → Err + unit)
    (S : PySet) (ocel : OCEL) (c c' : list (Msg Model))
    (total : nat) (counts : dict nat) (models : dict Model) (t : string) :
  discover_object_wise_sub_models_with_counts discover_ocdfg view_ocdfg
    S ocel c = (inr (total, counts, models), c') →
  t ∈ object_types ocel →
  ∃ m, dict_get t models = Some m ∧
       discover_ocdfg (sub_ocel S ocel (universal_relation ocel) t) = inr m ∧
       view_ocdfg m = inr ().
Proof.
  intros (_ & _ & Hserved)%run_returns Ht.
  eapply served_lookup; [done|apply NoDup_unique|done].
Qed.

Lemma models_are_discovery_results_witness :
  ∃ m, dict_get "item" [("order", (1, 2, 2)); ("item", (2, 2, 3))] = Some m ∧
       table_sizes (sub_ocel forward_set shop_log
                      (universal_relation shop_log) "item") = inr m ∧
       silent_view m = inr ().
Proof.
  refine (models_are_discovery_results table_sizes silent_view forward_set
            shop_log [] _ 3 [("order", 2); ("item", 3)]
            [("order", (1, 2, 2)); ("item", (2, 2, 3))] "item" _ _);
    [vm_compute; reflexivity | compute_done].
Defined.

(** ** Sub-logs as logs *)

Section sub_log_again.
Variable S : PySet.
Variable ocel : OCEL.
Variable t : string.

Local Abbreviation sub := (sub_ocel S ocel (universal_relation ocel) t).

(** In the sub-log an object id of one of its relation rows has the type
    it has in the log. *)
Lemma object_id_to_type_sub row :
  row ∈ relations sub →
  dict_get (rel_oid row) (object_id_to_type sub) =
    dict_get (rel_oid row) (object_id_to_type ocel).
Proof.
  intros Hrow. rewrite !object_id_to_type_last. do 2 f_equal.
  cbn [sub_ocel objects]. unfold related_objects.
  rewrite list_filter_filter. apply list_filter_iff. intros ob.
  split; [tauto|]. intros Hoid. split; [done|].
  unfold related_object_ids. rewrite set_of_elem, Hoid.
  by apply list_elem_of_fmap_2.
Qed.

(** The sub-log has the relevant events of the log. *)
Lemma relevant_event_ids_sub eid :
  eid ∈ relevant_event_ids (universal_relation sub) t ↔
  eid ∈ relevant_event_ids (universal_relation ocel) t.
Proof.
  rewrite (elem_of_relevant_event_ids sub). split.
  - intros (row & Hrow & <- & _).
    cbn [sub_ocel relations] in Hrow.
    by apply list_elem_of_filter in Hrow as [? _].
  - intros Hrel.
    pose proof Hrel as (row & Hrow & Heid & Ht)%elem_of_relevant_event_ids.
    assert (row ∈ relations sub) as Hsub.
    { cbn [sub_ocel relations]. apply list_elem_of_filter.
      split; [by rewrite Heid | done]. }
    exists row. split_and!; [done..|].
    by rewrite object_id_to_type_sub.
Qed.

End sub_log_again.

Lemma OCEL_eq (a b : OCEL) :
  events a = events b → objects a = objects b → relations a = relations b →
  a = b.
Proof. destruct a, b. cbn. by intros -> -> ->. Qed.

(** X9. Taking the sub-log of a type from the sub-log of this type gives
    the same sub-log again, with its own universal relation: events,
    objects and relations are unchanged, and so is the count. *)
Theorem sub_log_idempotent (S : PySet) (ocel : OCEL) (t : string) :
  sub_ocel S (sub_ocel S ocel (universal_relation ocel) t)
    (universal_relation (sub_ocel S ocel (universal_relation ocel) t)) t =
  sub_ocel S ocel (universal_relation ocel) t.
Proof.
  assert (relations
            (sub_ocel S (sub_ocel S ocel (universal_relation ocel) t)
               (universal_relation
                  (sub_ocel S ocel (universal_relation ocel) t)) t) =
          relations (sub_ocel S ocel (universal_relation ocel) t)) as Hrel.
  { unfold sub_ocel at 1. cbn [relations]. apply filter_all.
    intros row Hrow. apply relevant_event_ids_sub.
    cbn [sub_ocel relations] in Hrow.
    by apply list_elem_of_filter in Hrow as [? _]. }
  apply OCEL_eq; [| |exact Hrel].
  - unfold sub_ocel at 1. cbn [events]. apply filter_all.
    intros ev Hev. apply relevant_event_ids_sub.
    cbn [sub_ocel events] in Hev.
    by apply list_elem_of_filter in Hev as [? _].
  - unfold sub_ocel at 1 in Hrel. cbn [relations] in Hrel.
    unfold sub_ocel at 1. cbn [objects]. rewrite Hrel.
    apply filter_all. intros ob Hob.
    cbn [sub_ocel objects relations] in Hob |- *.
    by apply list_elem_of_filter in Hob as [? _].
Qed.

(** ** The order of the relation rows *)

(** X10. Reordering the rows of the Relation table changes neither the
    total nor a per-type count: they are the same for two logs with the
    same Object table whose Relation tables are permutations of each
    other. *)
Theorem counts_ignore_relation_order (ocel1 ocel2 : OCEL) (t : string) :
  objects ocel1 = objects ocel2 →
  relations ocel1 ≡ₚ relations ocel2 →
  length (universal_relation ocel1) = length (universal_relation ocel2) ∧
  universal_relation ocel1 ≡ₚ universal_relation ocel2 ∧
  sub_relation_count ocel1 t = sub_relation_count ocel2 t.
Proof.
  intros Hobj Hperm.
  assert (object_id_to_type ocel1 = object_id_to_type ocel2) as Hmap
    by (unfold object_id_to_type; by rewrite Hobj).
  assert (universal_relation ocel1 ≡ₚ universal_relation ocel2) as Hur.
  { rewrite !universal_relation_Permutation, Hperm.
    unfold entry_of. by rewrite Hmap. }
  split_and!.
  - by rewrite Hur.
  - done.
  - unfold sub_relation_count, sub_relations. rewrite Hperm. f_equal.
    apply list_filter_iff. intros row. unfold relevant_event_ids.
    by rewrite Hur.
Qed.

Lemma counts_ignore_relation_order_witness :
  length (universal_relation shop_log) =
    length (universal_relation interleaved_log) ∧
  universal_relation shop_log ≡ₚ universal_relation interleaved_log ∧
  sub_relation_count shop_log "order" =
    sub_relation_count interleaved_log "order".
Proof.
  apply (counts_ignore_relation_order shop_log interleaved_log "order").
  - reflexivity.
  - cbn. apply Permutation_skip, Permutation_swap.
Defined.

(** ** The mapping from object ids to types *)

Lemma filter_same_key_NoDup {A} (f : A → string) (l : list A) (x : A) :
  NoDup (f <$> l) → x ∈ l → filter (λ y, f y = f x) l = [x].
Proof.
  induction l as [|y l IH]; intros Hnd Hin; [by apply elem_of_nil in Hin|].
  rewrite fmap_cons in Hnd. apply NoDup_cons in Hnd as [Hnin Hnd].
  apply elem_of_cons in Hin as [->|Hin].
  - rewrite filter_cons_True by done. f_equal.
    apply filter_none. intros z Hz Heq. apply Hnin. rewrite <- Heq.
    by apply list_elem_of_fmap_2.
  - rewrite filter_cons_False; [by apply IH|].
    intros Heq. apply Hnin. rewrite Heq. by apply list_elem_of_fmap_2.
Qed.

(** X11. When the object ids of the Object table are pairwise different,
    the mapping gives for the id of every object row the type of this
    row, so a relation row that names the object resolves to its type
    and is in the sub-log of this type together with the object. *)
Theorem unique_ids_resolve_to_own_type (S : PySet) (ocel : OCEL)
    (ob : ObjectRow) (row : RelationRow) :
  NoDup (ob_oid <$> objects ocel) →
  ob ∈ objects ocel →
  row ∈ relations ocel →
  rel_oid row = ob_oid ob →
  dict_get (ob_oid ob) (object_id_to_type ocel) = Some (ob_type ob) ∧
  object_type (entry_of ocel row) = Some (ob_type ob) ∧
  row ∈ relations (sub_ocel S ocel (universal_relation ocel) (ob_type ob)) ∧
  ob ∈ objects (sub_ocel S ocel (universal_relation ocel) (ob_type ob)).
Proof.
  intros Hnd Hob Hrow Hoid.
  assert (dict_get (ob_oid ob) (object_id_to_type ocel) = Some (ob_type ob))
    as Hget.
  { rewrite object_id_to_type_last.
    by rewrite (filter_same_key_NoDup ob_oid) by done. }
  assert (row ∈ sub_relations ocel
            (relevant_event_ids (universal_relation ocel) (ob_type ob)))
    as Hsub.
  { apply elem_of_sub_relations. split; [done|]. exists row.
    by rewrite Hoid. }
  split_and!.
  - done.
  - cbn. by rewrite Hoid.
  - done.
  - cbn [sub_ocel objects]. apply list_elem_of_filter. split; [|done].
    unfold related_object_ids. rewrite set_of_elem, <- Hoid.
    by apply list_elem_of_fmap_2.
Qed.

Lemma unique_ids_resolve_to_own_type_witness :
  dict_get "o2" (object_id_to_type shop_log) = Some "item" ∧
  object_type (entry_of shop_log (mkRelation "e2" "o2" [])) = Some "item" ∧
  mkRelation "e2" "o2" [] ∈
    relations (sub_ocel forward_set shop_log (universal_relation shop_log)
                 "item") ∧
  mkObject "o2" "item" [] ∈
    objects (sub_ocel forward_set shop_log (universal_relation shop_log)
               "item").
Proof.
  apply (unique_ids_resolve_to_own_type forward_set shop_log
           (mkObject "o2" "item" []) (mkRelation "e2" "o2" []));
    compute_done.
Defined.

(** ** Growing logs *)

Lemma filter_sublist_mono {A} (P : A → Prop) `{!∀ x, Decision (P x)}
    (l1 l2 : list A) :
  l1 `sublist_of` l2 → filter P l1 `sublist_of` filter P l2.
Proof.
  induction 1 as [|x l1 l2 _ IH|x l1 l2 _ IH]; [done|..].
  - rewrite !filter_cons. destruct (decide (P x)); [by constructor|done].
  - rewrite filter_cons. destruct (decide (P x)); [by constructor|done].
Qed.

(** X12. Adding rows to the Relation table, the Object table staying the
    same, removes nothing: the total and every per-type count of the
    larger log are at least those of the smaller one, and the relation
    rows of a sub-log of the smaller log are in the sub-log of the same
    type of the larger log. *)
Theorem counts_grow_with_relations (ocel1 ocel2 : OCEL) (t : string) :
  objects ocel1 = objects ocel2 →
  relations ocel1 `sublist_of` relations ocel2 →
  length (universal_relation ocel1) ≤ length (universal_relation ocel2) ∧
  sub_relation_count ocel1 t ≤ sub_relation_count ocel2 t ∧
  (∀ row,
     row ∈ sub_relations ocel1
             (relevant_event_ids (universal_relation ocel1) t) →
     row ∈ sub_relations ocel2
             (relevant_event_ids (universal_relation ocel2) t)).
Proof.
  intros Hobj Hsub.
  assert (object_id_to_type ocel1 = object_id_to_type ocel2) as Hmap
    by (unfold object_id_to_type; by rewrite Hobj).
  assert (∀ eid, eid ∈ relevant_event_ids (universal_relation ocel1) t →
                 eid ∈ relevant_event_ids (universal_relation ocel2) t)
    as Hrel.
  { intros eid (row & Hrow & Heid & Ht)%elem_of_relevant_event_ids.
    apply elem_of_relevant_event_ids. exists row. split_and!; [|done|].
    - by eapply elem_of_sublist.
    - by rewrite <- Hmap. }
  split_and!.
  - rewrite !length_universal_relation. by apply sublist_length.
  - unfold sub_relation_count, sub_relations.
    etrans;
      [apply (length_filter_mono _
                (λ row, rel_eid row ∈
                   relevant_event_ids (universal_relation ocel2) t));
       intros row _; apply Hrel|].
    apply sublist_length. by apply filter_sublist_mono.
  - intros row [Hrow Hin]%list_elem_of_filter.
    apply list_elem_of_filter. split; [by apply Hrel|].
    by eapply elem_of_sublist.
Qed.

Lemma counts_grow_with_relations_witness :
  length (universal_relation two_items_log) ≤
    length (universal_relation
              (mkOCEL (events two_items_log) (objects two_items_log)
                 (relations two_items_log ++ [mkRelation "e2" "o1" []]))) ∧
  sub_relation_count two_items_log "item" ≤
    sub_relation_count
      (mkOCEL (events two_items_log) (objects two_items_log)
         (relations two_items_log ++ [mkRelation "e2" "o1" []])) "item" ∧
  (∀ row,
     row ∈ sub_relations two_items_log
             (relevant_event_ids (universal_relation two_items_log)
                "item") →
     row ∈ sub_relations
             (mkOCEL (events two_items_log) (objects two_items_log)
                (relations two_items_log ++ [mkRelation "e2" "o1" []]))
             (relevant_event_ids
                (universal_relation
                   (mkOCEL (events two_items_log) (objects two_items_log)
                      (relations two_items_log ++
                         [mkRelation "e2" "o1" []]))) "item")).
Proof.
  apply (counts_grow_with_relations two_items_log
           (mkOCEL (events two_items_log) (objects two_items_log)
              (relations two_items_log ++ [mkRelation "e2" "o1" []]))
           "item").
  - reflexivity.
  - apply sublist_inserts_r. reflexivity.
Defined.
